(** * Agent Coordination Core of corpchat / cognitive-core

    A shallow embedding of the in-process coordination core
    (src/cognitive-core/src/a2a and src/cognitive-core/src/core/orchestrator.py)
    together with the properties stated about it.

    Python dictionaries are finite maps ([gmap]) where only lookups
    matter and association lists where iteration order is observable;
    lists and deques are [list]; exceptions of the core are the
    [Raise] branch of [result] and the builtin exceptions of failed
    lookups the [Raises] branch of [outcome]; mutable managers are
    records threaded through every operation; readings of the clock and of [uuid.uuid4] are explicit
    arguments of the operation that performs them. *)

From Stdlib Require Import ZArith.
From stdpp Require Import gmap strings list fin_maps pretty.

Local Open Scope string_scope.
Local Open Scope list_scope.

(** ** Python values and exceptions *)

(** Opaque payload values ([Any] in the source).  On this fragment
    Python's [==] coincides with structural equality. *)
Inductive pyval : Type :=
  | PyNone
  | PyInt (z : Z)
  | PyStr (s : string).

#[global] Instance pyval_eq_dec : EqDecision pyval.
Proof. solve_decision. Defined.

(** A [Dict[str, Any]] payload. *)
Abbreviation pydict := (gmap string pyval).

(** [d.get(key)]: a missing key reads as [None]. *)
Definition dict_get (d : pydict) (key : string) : pyval :=
  default PyNone (d !! key).

(** src/cognitive-core/src/shared/exceptions.py: the classes of
    [CognitiveCoreException] raised by the core, each carrying its
    message. *)
Inductive exn : Type :=
  | A2AProtocolError (message : string)
  | ValidationError (message : string)
  | OrchestrationError (message : string)
  | AgentRaised (message : string).

(** [str(e)] *)
Definition str (e : exn) : string :=
  match e with
  | A2AProtocolError m | ValidationError m | OrchestrationError m
  | AgentRaised m => m
  end.

Inductive result (A : Type) : Type :=
  | Ok (a : A)
  | Raise (e : exn).
Arguments Ok {A} a.
Arguments Raise {A} e.

Definition bind {A B} (r : result A) (k : A → result B) : result B :=
  match r with
  | Ok a => k a
  | Raise e => Raise e
  end.

(** [try: body except Exception as e: raise handler(e)] *)
Definition try_except {A} (body : result A) (handler : exn → exn) : result A :=
  match body with
  | Ok a => Ok a
  | Raise e => Raise (handler e)
  end.

(** [if cond: raise e], followed by the rest of the block. *)
Definition raise_if {A} (cond : bool) (e : exn) (rest : result A) : result A :=
  if cond then Raise e else rest.

Definition is_raise {A} (r : result A) : bool :=
  match r with
  | Ok _ => false
  | Raise _ => true
  end.

(** Truthiness of a [str] and of a [dict]: empty is falsy. *)
Definition truthy_str (s : string) : bool :=
  match s with
  | EmptyString => false
  | String _ _ => true
  end.

Definition truthy_dict (d : pydict) : bool :=
  negb (bool_decide (d = ∅)).

(** [list.remove(x)]: drops the first occurrence of [x]. *)
Fixpoint py_list_remove (x : string) (l : list string) : list string :=
  match l with
  | [] => []
  | y :: l' => if bool_decide (x = y) then l' else y :: py_list_remove x l'
  end.

(** ** Task Manager (src/cognitive-core/src/a2a/task_manager.py) *)

Module TaskManager.

(** shared/types.py, [class TaskStatus(str, Enum)] *)
Inductive TaskStatus : Type :=
  | PENDING
  | IN_PROGRESS
  | COMPLETED
  | FAILED
  | AUTH_REQUIRED.

#[global] Instance TaskStatus_eq_dec : EqDecision TaskStatus.
Proof. solve_decision. Defined.

Definition value (s : TaskStatus) : string :=
  match s with
  | PENDING => "pending"
  | IN_PROGRESS => "in-progress"
  | COMPLETED => "completed"
  | FAILED => "failed"
  | AUTH_REQUIRED => "auth-required"
  end.

(** shared/types.py, [class TaskInfo(BaseModel)] *)
Record TaskInfo : Type := mkTaskInfo {
  task_id : string;
  context_id : string;
  status : TaskStatus;
  skill_id : string;
  input_data : pydict;
  output_data : option pydict;
  error_message : option string;
  created_at : option string;
  updated_at : option string
}.

(** The two dictionaries of a [TaskManager] instance. *)
Record t : Type := mkTaskManager {
  _tasks : gmap string TaskInfo;
  _contexts : gmap string (list string)
}.

(** [TaskManager.__init__] *)
Definition init : t :=
  {| _tasks := ∅; _contexts := ∅ |}.

(** [_validate_task_info]: four guarded raises inside a
    [try]/[except] that re-raises every exception as a
    [ValidationError]. *)
Definition _validate_task_info (task_info : TaskInfo) : result unit :=
  try_except
    (raise_if (negb (truthy_str (task_id task_info)))
       (ValidationError "Tarea sin ID")
    (raise_if (negb (truthy_str (context_id task_info)))
       (ValidationError ("Tarea " +:+ task_id task_info +:+ " sin context_id"))
    (raise_if (negb (truthy_str (skill_id task_info)))
       (ValidationError ("Tarea " +:+ task_id task_info +:+ " sin skill_id"))
    (raise_if (negb (truthy_dict (input_data task_info)))
       (ValidationError ("Tarea " +:+ task_id task_info +:+ " sin input_data"))
    (Ok tt)))))
    (λ e, ValidationError
            ("Error validando tarea " +:+ task_id task_info +:+ ": " +:+ str e)).

(** [valid_transitions] of [_validate_status_transition] *)
Definition valid_transitions (current_status : TaskStatus) : list TaskStatus :=
  match current_status with
  | PENDING => [IN_PROGRESS; FAILED; AUTH_REQUIRED]
  | IN_PROGRESS => [COMPLETED; FAILED; AUTH_REQUIRED]
  | AUTH_REQUIRED => [IN_PROGRESS; FAILED]
  | COMPLETED => []
  | FAILED => []
  end.

Definition _validate_status_transition
    (current_status new_status : TaskStatus) : result unit :=
  raise_if (negb (bool_decide (new_status ∈ valid_transitions current_status)))
    (ValidationError ("Transición de estado inválida: "
                      +:+ value current_status +:+ " -> " +:+ value new_status))
    (Ok tt).

(** [create_task].  [uuid4] is the identifier [uuid.uuid4()] would
    produce and [now] the reading of [get_timestamp()]. *)
Definition create_task (self : t) (context_id skill_id : string)
    (input_data : pydict) (task_id : option string) (uuid4 now : string)
    : t * result TaskInfo :=
  let task_id :=
    match task_id with
    | Some s => if truthy_str s then s else uuid4
    | None => uuid4
    end in
  let task_info :=
    mkTaskInfo task_id context_id PENDING skill_id input_data None None
               (Some now) None in
  match _validate_task_info task_info with
  | Raise e => (self, Raise (A2AProtocolError ("Error creando tarea: " +:+ str e)))
  | Ok _ =>
      let tasks := <[task_id := task_info]> (_tasks self) in
      let contexts :=
        match _contexts self !! context_id with
        | None => <[context_id := []]> (_contexts self)
        | Some _ => _contexts self
        end in
      let contexts := alter (λ ids, ids ++ [task_id]) context_id contexts in
      (mkTaskManager tasks contexts, Ok task_info)
  end.

(** [get_task] *)
Definition get_task (self : t) (task_id : string) : option TaskInfo :=
  _tasks self !! task_id.

(** [get_tasks_by_context] *)
Definition get_tasks_by_context (self : t) (context_id : string) : list TaskInfo :=
  let task_ids := default [] (_contexts self !! context_id) in
  omap (λ task_id, _tasks self !! task_id) task_ids.

(** [update_task_status].  The stored [TaskInfo] object is mutated in
    place, field by field, and only then is the transition validated;
    the validation reads [task_info.status] after the assignment.  The
    outer [except] re-raises without undoing those assignments. *)
Definition update_task_status (self : t) (task_id : string) (status : TaskStatus)
    (output_data : option pydict) (error_message : option string) (now : string)
    : t * result TaskInfo :=
  let wrap (e : exn) :=
    A2AProtocolError ("Error actualizando estado de tarea " +:+ task_id
                      +:+ ": " +:+ str e) in
  match _tasks self !! task_id with
  | None =>
      (self, Raise (wrap (A2AProtocolError ("Tarea no encontrada: " +:+ task_id))))
  | Some task_info =>
      let task_info :=
        mkTaskInfo (TaskManager.task_id task_info) (context_id task_info)
          status
          (skill_id task_info) (input_data task_info)
          (match output_data with
           | Some d => Some d
           | None => TaskManager.output_data task_info
           end)
          (match error_message with
           | Some m => Some m
           | None => TaskManager.error_message task_info
           end)
          (created_at task_info)
          (Some now) in
      let self := mkTaskManager (<[task_id := task_info]> (_tasks self))
                                (_contexts self) in
      match _validate_status_transition (TaskManager.status task_info) status with
      | Raise e => (self, Raise (wrap e))
      | Ok _ => (self, Ok task_info)
      end
  end.

Definition complete_task (self : t) (task_id : string) (output_data : pydict)
    (now : string) : t * result TaskInfo :=
  update_task_status self task_id COMPLETED (Some output_data) None now.

Definition fail_task (self : t) (task_id error_message now : string)
    : t * result TaskInfo :=
  update_task_status self task_id FAILED None (Some error_message) now.

Definition start_task (self : t) (task_id now : string) : t * result TaskInfo :=
  update_task_status self task_id IN_PROGRESS None None now.

Definition require_auth_task (self : t) (task_id auth_message now : string)
    : t * result TaskInfo :=
  update_task_status self task_id AUTH_REQUIRED None (Some auth_message) now.

(** [delete_task] *)
Definition delete_task (self : t) (task_id : string) : t * bool :=
  match _tasks self !! task_id with
  | None => (self, false)
  | Some task_info =>
      let context_id := context_id task_info in
      let contexts :=
        match _contexts self !! context_id with
        | Some ids =>
            let ids :=
              if bool_decide (task_id ∈ ids) then py_list_remove task_id ids
              else ids in
            match ids with
            | [] => delete context_id (_contexts self)
            | _ :: _ => <[context_id := ids]> (_contexts self)
            end
        | None => _contexts self
        end in
      (mkTaskManager (delete task_id (_tasks self)) contexts, true)
  end.

(** The list object that [delete_context] binds to [task_ids] and
    iterates over.  [self._contexts.get(context_id, [])] returns the
    very list stored in the index, not a copy, so every
    [self._contexts[context_id].remove(task_id)] performed by
    [delete_task] during the loop is seen by the iterator.  The
    contents of that object are therefore read back from the index at
    every step.  Once [delete_task] unlinks the entry
    ([del self._contexts[context_id]]) the object is empty, nothing
    mutates it afterwards, and the missing entry reads as [[]] here as
    well; the same holds for the fresh [[]] returned when the context
    was never indexed. *)
Definition task_ids_object (self : t) (context_id : string) : list string :=
  default [] (_contexts self !! context_id).

(** [for task_id in task_ids: if self.delete_task(task_id):
    deleted_count += 1].  A Python list iterator keeps an index [i]
    into the live list and stops as soon as [i] is past its end.
    [fuel] bounds the number of iterations; [delete_context] supplies
    the initial length, which is never exceeded because the list only
    shrinks while [i] grows. *)
Fixpoint delete_context_loop (fuel : nat) (context_id : string) (i : nat)
    (deleted_count : nat) (self : t) : t * nat :=
  match fuel with
  | O => (self, deleted_count)
  | S fuel =>
      match task_ids_object self context_id !! i with
      | None => (self, deleted_count)
      | Some task_id =>
          let '(self, deleted) := delete_task self task_id in
          delete_context_loop fuel context_id (S i)
            (if deleted then S deleted_count else deleted_count) self
      end
  end.

(** [delete_context] *)
Definition delete_context (self : t) (context_id : string) : t * nat :=
  delete_context_loop (length (task_ids_object self context_id))
    context_id 0 0 self.

(** [get_tasks_by_status]; the order of the returned list is not
    modelled. *)
Definition get_tasks_by_status (self : t) (status : TaskStatus) : list TaskInfo :=
  filter (λ task, TaskManager.status task = status)
         (snd <$> map_to_list (_tasks self)).

(** [get_task_statistics] *)
Record TaskStatistics : Type := mkTaskStatistics {
  total_tasks : nat;
  total_contexts : nat;
  status_counts : TaskStatus → nat;
  contexts : gset string
}.

Definition get_task_statistics (self : t) : TaskStatistics :=
  {| total_tasks := size (_tasks self);
     total_contexts := size (_contexts self);
     status_counts := λ status, length (get_tasks_by_status self status);
     contexts := dom (_contexts self) |}.

(** A call of [create_task] or [delete_task] with its arguments and
    the readings of [uuid4] and of the clock it would make. *)
Inductive call : Type :=
  | CreateTask (context_id skill_id : string) (input_data : pydict)
               (task_id : option string) (uuid4 now : string)
  | DeleteTask (task_id : string).

Definition run_call (self : t) (c : call) : t :=
  match c with
  | CreateTask context_id skill_id input_data task_id uuid4 now =>
      fst (create_task self context_id skill_id input_data task_id uuid4 now)
  | DeleteTask task_id => fst (delete_task self task_id)
  end.

Definition run_calls (self : t) (cs : list call) : t :=
  foldl run_call self cs.

(** Any of the four mutating calls of a [TaskManager], with the
    arguments and the readings it would make. *)
Inductive operation : Type :=
  | Create (context_id skill_id : string) (input_data : pydict)
           (task_id : option string) (uuid4 now : string)
  | UpdateStatus (task_id : string) (status : TaskStatus)
                 (output_data : option pydict) (error_message : option string)
                 (now : string)
  | Delete (task_id : string)
  | DeleteContext (context_id : string).

Definition run_operation (self : t) (op : operation) : t :=
  match op with
  | Create context_id skill_id input_data task_id uuid4 now =>
      fst (create_task self context_id skill_id input_data task_id uuid4 now)
  | UpdateStatus task_id status output_data error_message now =>
      fst (update_task_status self task_id status output_data error_message now)
  | Delete task_id => fst (delete_task self task_id)
  | DeleteContext context_id => fst (delete_context self context_id)
  end.

Definition run_operations (self : t) (ops : list operation) : t :=
  foldl run_operation self ops.

End TaskManager.

(** ** Event Queue (src/cognitive-core/src/a2a/event_queue.py) *)

Module EventQueue.

(** [@dataclass class Event] *)
Record Event : Type := mkEvent {
  event_id : string;
  event_type : string;
  content : pyval;
  timestamp : string;
  metadata : pydict;
  sender_id : option string;
  receiver_id : option string;
  priority : Z
}.

(** The [event_data] dictionary handed to [put]: the keys [put] reads,
    each present or absent. *)
Record EventData : Type := mkEventData {
  data_event_id : option string;
  data_type : option string;
  data_content : option pyval;
  data_metadata : option pydict;
  data_sender_id : option string;
  data_receiver_id : option string
}.

(** The fields of an [EventQueue] instance; the three deques hold
    their oldest element first.  Every coroutine below runs its whole
    body under [self._lock], so each is one atomic step on this
    record. *)
Record t : Type := mkEventQueue {
  max_size : Z;
  high_priority_queue : list Event;
  normal_priority_queue : list Event;
  low_priority_queue : list Event;
  total_events_processed : nat;
  total_events_dropped : nat
}.

(** [EventQueue.__init__] *)
Definition init (max_size : Z) : t :=
  mkEventQueue max_size [] [] [] 0 0.

(** [create_event_queue()] with its default capacity. *)
Definition default_max_size : Z := 1000.

Definition _get_total_size (self : t) : Z :=
  Z.of_nat (length (high_priority_queue self))
  + Z.of_nat (length (normal_priority_queue self))
  + Z.of_nat (length (low_priority_queue self)).

Definition size (self : t) : Z := _get_total_size self.

Definition is_empty (self : t) : bool := bool_decide (_get_total_size self = 0%Z).

Definition is_full (self : t) : bool :=
  bool_decide (max_size self ≤ _get_total_size self)%Z.

(** The [Event(...)] built by [put].  [now_stamp] is the rendering of
    [datetime.now().timestamp()] used for the default id and [now] the
    reading taken by the [timestamp] field's default factory. *)
Definition make_event (event_data : EventData) (priority : Z)
    (now_stamp now : string) : Event :=
  {| event_id := default ("event_" +:+ now_stamp) (data_event_id event_data);
     event_type := default "message" (data_type event_data);
     content := default PyNone (data_content event_data);
     timestamp := now;
     metadata := default ∅ (data_metadata event_data);
     sender_id := data_sender_id event_data;
     receiver_id := data_receiver_id event_data;
     priority := priority |}.

(** [put]: the coroutine returns [None] on both paths, so the model
    returns the new state only. *)
Definition put (self : t) (event_data : EventData) (priority : Z)
    (now_stamp now : string) : t :=
  if bool_decide (max_size self ≤ _get_total_size self)%Z then
    mkEventQueue (max_size self) (high_priority_queue self)
      (normal_priority_queue self) (low_priority_queue self)
      (total_events_processed self) (S (total_events_dropped self))
  else
    let event := make_event event_data priority now_stamp now in
    if bool_decide (0 < priority)%Z then
      mkEventQueue (max_size self) (high_priority_queue self ++ [event])
        (normal_priority_queue self) (low_priority_queue self)
        (total_events_processed self) (total_events_dropped self)
    else if bool_decide (priority < 0)%Z then
      mkEventQueue (max_size self) (high_priority_queue self)
        (normal_priority_queue self) (low_priority_queue self ++ [event])
        (total_events_processed self) (total_events_dropped self)
    else
      mkEventQueue (max_size self) (high_priority_queue self)
        (normal_priority_queue self ++ [event]) (low_priority_queue self)
        (total_events_processed self) (total_events_dropped self).

(** [get].  An [Event] instance is always truthy, so [if event:]
    holds exactly when one of the three [popleft] branches ran. *)
Definition get (self : t) : t * option Event :=
  match high_priority_queue self with
  | event :: high =>
      (mkEventQueue (max_size self) high (normal_priority_queue self)
         (low_priority_queue self) (S (total_events_processed self))
         (total_events_dropped self), Some event)
  | [] =>
      match normal_priority_queue self with
      | event :: normal =>
          (mkEventQueue (max_size self) [] normal (low_priority_queue self)
             (S (total_events_processed self)) (total_events_dropped self),
           Some event)
      | [] =>
          match low_priority_queue self with
          | event :: low =>
              (mkEventQueue (max_size self) [] [] low
                 (S (total_events_processed self)) (total_events_dropped self),
               Some event)
          | [] => (self, None)
          end
      end
  end.

(** [peek] *)
Definition peek (self : t) : option Event :=
  match high_priority_queue self with
  | event :: _ => Some event
  | [] =>
      match normal_priority_queue self with
      | event :: _ => Some event
      | [] => head (low_priority_queue self)
      end
  end.

(** [clear] *)
Definition clear (self : t) : t :=
  mkEventQueue (max_size self) [] [] []
    (total_events_processed self) (total_events_dropped self).

(** [get_events_by_type] *)
Definition get_events_by_type (self : t) (event_type : string) : list Event :=
  List.filter (λ event, bool_decide (EventQueue.event_type event = event_type))
    (high_priority_queue self ++ normal_priority_queue self
     ++ low_priority_queue self).

(** [get_stats] *)
Record Stats : Type := mkStats {
  stats_total_size : Z;
  stats_high_priority_size : nat;
  stats_normal_priority_size : nat;
  stats_low_priority_size : nat;
  stats_max_size : Z;
  stats_total_events_processed : nat;
  stats_total_events_dropped : nat;
  stats_is_empty : bool;
  stats_is_full : bool
}.

Definition get_stats (self : t) : Stats :=
  {| stats_total_size := _get_total_size self;
     stats_high_priority_size := length (high_priority_queue self);
     stats_normal_priority_size := length (normal_priority_queue self);
     stats_low_priority_size := length (low_priority_queue self);
     stats_max_size := max_size self;
     stats_total_events_processed := total_events_processed self;
     stats_total_events_dropped := total_events_dropped self;
     stats_is_empty := is_empty self;
     stats_is_full := is_full self |}.

(** A call of one of the three mutating coroutines. *)
Inductive operation : Type :=
  | Put (event_data : EventData) (priority : Z) (now_stamp now : string)
  | Get
  | Clear.

Definition run_operation (self : t) (op : operation) : t :=
  match op with
  | Put event_data priority now_stamp now =>
      put self event_data priority now_stamp now
  | Get => fst (get self)
  | Clear => clear self
  end.

Definition run_operations (self : t) (ops : list operation) : t :=
  foldl run_operation self ops.

End EventQueue.

(** ** Request context (src/cognitive-core/src/a2a/request_context.py) *)

Module RequestContext.

(** [@dataclass class RequestContext]: the fields the orchestrator
    supplies or assigns.  [user_id], [session_id],
    [processing_options], [conversation_history] and [shared_context]
    always hold their dataclass defaults when an agent receives the
    context. *)
Record t : Type := mkRequestContext {
  message : string;
  request_id : string;
  timestamp : string;
  metadata : pydict
}.

End RequestContext.

(** ** Orchestrator (src/cognitive-core/src/core/orchestrator.py) *)

Module Orchestrator.

(** [class OrchestrationStrategy(Enum)] *)
Inductive OrchestrationStrategy : Type :=
  | SEQUENTIAL
  | PARALLEL
  | LOOP
  | CONDITIONAL.

(** [OrchestrationStrategy(strategy)]: lookup by value, a
    [ValueError] for any other string. *)
Definition OrchestrationStrategy_of_value (strategy : string)
    : option OrchestrationStrategy :=
  if bool_decide (strategy = "sequential") then Some SEQUENTIAL
  else if bool_decide (strategy = "parallel") then Some PARALLEL
  else if bool_decide (strategy = "loop") then Some LOOP
  else if bool_decide (strategy = "conditional") then Some CONDITIONAL
  else None.

(** An agent as the orchestrator sees it: a readable [name] and the
    coroutine [execute(context, event_queue)].  Whatever the agent does
    to the queue it was handed is a transformation of that queue;
    the coroutine then returns [None] or raises. *)
Record Agent : Type := mkAgent {
  name : string;
  execute : RequestContext.t → EventQueue.t → EventQueue.t * result unit
}.

(** The [processed_input] dictionary: the keys the core reads. *)
Record ProcessedData : Type := mkProcessedData {
  text : option string;
  type : option string
}.

(** One element of the list [orchestrate] returns: a dictionary over
    the keys the four strategies write, each present or absent. *)
Record Response : Type := mkResponse {
  agent : string;
  response : option pyval;
  metadata : option pydict;
  error : option string;
  status : option string;
  iteration : option nat;
  condition_met : option bool;
  reason : option string
}.

(** The two readings of [datetime.now()] made for one invocation: the
    rendering of [.timestamp()] inside [request_id] and the instant
    stored by the [timestamp] default factory.  [clock k] are the
    readings of the [k]-th invocation of a run. *)
Definition Clock : Type := nat → string * string.

(** The lines every strategy repeats for one agent:
    [event_queue = EventQueue()], [await agent.execute(context,
    event_queue)], [response = await event_queue.get()]. *)
Definition invoke (agent : Agent) (context : RequestContext.t)
    : result (option EventQueue.Event) :=
  let event_queue := EventQueue.init EventQueue.default_max_size in
  let '(event_queue, returned) := execute agent context event_queue in
  bind returned (λ _, Ok (snd (EventQueue.get event_queue))).

Definition failed_record (agent : Agent) (e : exn) : Response :=
  mkResponse (name agent) None None (Some (str e)) (Some "failed") None None None.

(** The body of [for agent in agents:] in [_sequential_orchestration],
    with the mutable [responses] list as accumulator.  A falsy
    [response] appends nothing. *)
Fixpoint sequential_loop (clock : Clock) (processed_input : ProcessedData)
    (agents : list Agent) (tick : nat) (responses : list Response)
    : list Response :=
  match agents with
  | [] => responses
  | agent :: agents =>
      let context :=
        RequestContext.mkRequestContext (default "" (text processed_input))
          ("seq_" +:+ fst (clock tick)) (snd (clock tick)) ∅ in
      let responses :=
        match invoke agent context with
        | Ok (Some response) =>
            responses ++
              [mkResponse (name agent) (Some (EventQueue.content response))
                 (Some (EventQueue.metadata response)) None None None None None]
        | Ok None => responses
        | Raise e => responses ++ [failed_record agent e]
        end in
      sequential_loop clock processed_input agents (S tick) responses
  end.

Definition _sequential_orchestration (clock : Clock) (agents : list Agent)
    (processed_input : ProcessedData) : list Response :=
  sequential_loop clock processed_input agents 0 [].

(** [_execute_agent_async] *)
Definition _execute_agent_async (now : string * string) (agent : Agent)
    (processed_input : ProcessedData) : Response :=
  let context :=
    RequestContext.mkRequestContext (default "" (text processed_input))
      ("async_" +:+ fst now) (snd now) ∅ in
  match invoke agent context with
  | Ok (Some response) =>
      mkResponse (name agent) (Some (EventQueue.content response))
        (Some (EventQueue.metadata response)) None (Some "completed")
        None None None
  | Ok None =>
      mkResponse (name agent) None None None (Some "no_response") None None None
  | Raise e => failed_record agent e
  end.

(** [_parallel_orchestration].  Each coroutine owns its context and
    its queue and [_execute_agent_async] catches every exception, so
    [asyncio.gather] yields one dictionary per agent, in the order of
    [agents], and none of them is an [Exception]. *)
Definition _parallel_orchestration (clock : Clock) (agents : list Agent)
    (processed_input : ProcessedData) : list Response :=
  imap (λ i agent, _execute_agent_async (clock i) agent processed_input) agents.

(** [_should_stop_loop] *)
Definition _should_stop_loop (responses : list Response) : bool :=
  existsb (λ response, bool_decide (status response = Some "failed")) responses.

(** The inner [for agent in agents:] of [_loop_orchestration]. *)
Fixpoint loop_agents (clock : Clock) (processed_input : ProcessedData)
    (iteration : nat) (agents : list Agent) (tick : nat)
    (iteration_responses : list Response) : list Response * nat :=
  match agents with
  | [] => (iteration_responses, tick)
  | agent :: agents =>
      let context :=
        RequestContext.mkRequestContext (default "" (text processed_input))
          ("loop_" +:+ pretty iteration +:+ "_" +:+ fst (clock tick))
          (snd (clock tick))
          {[ "iteration" := PyInt (Z.of_nat iteration) ]} in
      let iteration_responses :=
        match invoke agent context with
        | Ok (Some response) =>
            iteration_responses ++
              [mkResponse (name agent) (Some (EventQueue.content response))
                 (Some (EventQueue.metadata response)) None None
                 (Some iteration) None None]
        | Ok None => iteration_responses
        | Raise e =>
            iteration_responses ++
              [mkResponse (name agent) None None (Some (str e)) (Some "failed")
                 (Some iteration) None None]
        end in
      loop_agents clock processed_input iteration agents (S tick)
        iteration_responses
  end.

(** The outer [for iteration in range(max_iterations):];
    [remaining] counts the iterations still to run. *)
Fixpoint loop_iterations (clock : Clock) (processed_input : ProcessedData)
    (agents : list Agent) (remaining iteration tick : nat)
    (responses : list Response) : list Response :=
  match remaining with
  | O => responses
  | S remaining =>
      let '(iteration_responses, tick) :=
        loop_agents clock processed_input iteration agents tick [] in
      let responses := responses ++ iteration_responses in
      if _should_stop_loop iteration_responses then responses
      else loop_iterations clock processed_input agents remaining
             (S iteration) tick responses
  end.

(** The configuration as [_loop_orchestration] meets it in
    [max_iterations = self.config.orchestration.get("max_iterations", 5)]
    and [range(max_iterations)]; the constructor stores whatever
    [config] it is given.  [WithOrchestration max_iterations]: the
    object has an [orchestration] dictionary, in which the integer
    [max_iterations] is present or absent.  [Unreadable message]:
    one of the two expressions raises, [message] being the [str()] of
    the exception; the [CoreConfig] of shared/types.py is such an
    object, its field being named [orchestrator], and so is one
    whose [max_iterations] entry [range] refuses. *)
Inductive Config : Type :=
  | WithOrchestration (max_iterations : option Z)
  | Unreadable (message : string).

(** The body of [_loop_orchestration] from the point where
    [max_iterations] has been read; [max_iterations] is the number of
    iterations the entry of [self.config.orchestration], if any,
    allows.  The read itself, which may raise before any agent has
    run, is the [LOOP] case of [orchestrate]. *)
Definition _loop_orchestration (max_iterations : option nat) (clock : Clock)
    (agents : list Agent) (processed_input : ProcessedData) : list Response :=
  loop_iterations clock processed_input agents (default 5 max_iterations) 0 0 [].

(** [_should_execute_agent] *)
Definition _should_execute_agent (agent : Agent) (processed_input : ProcessedData)
    : bool := true.

Fixpoint conditional_loop (clock : Clock) (processed_input : ProcessedData)
    (agents : list Agent) (tick : nat) (responses : list Response)
    : list Response :=
  match agents with
  | [] => responses
  | agent :: agents =>
      if _should_execute_agent agent processed_input then
        let context :=
          RequestContext.mkRequestContext (default "" (text processed_input))
            ("cond_" +:+ fst (clock tick)) (snd (clock tick)) ∅ in
        let responses :=
          match invoke agent context with
          | Ok (Some response) =>
              responses ++
                [mkResponse (name agent) (Some (EventQueue.content response))
                   (Some (EventQueue.metadata response)) None None None
                   (Some true) None]
          | Ok None => responses
          | Raise e =>
              responses ++
                [mkResponse (name agent) None None (Some (str e))
                   (Some "failed") None (Some true) None]
          end in
        conditional_loop clock processed_input agents (S tick) responses
      else
        conditional_loop clock processed_input agents tick
          (responses ++
             [mkResponse (name agent) None None None (Some "skipped") None
                (Some false) (Some "Condition not met")])
  end.

Definition _conditional_orchestration (clock : Clock) (agents : list Agent)
    (processed_input : ProcessedData) : list Response :=
  conditional_loop clock processed_input agents 0 [].

(** [orchestrate].  [repr] is Python's [repr] on strings: the
    [ValueError] of [OrchestrationStrategy(strategy)] reads
    ["%r is not a valid %s" % (value, cls.__qualname__)].  Two
    exceptions can reach the [except Exception] clause, which wraps
    the text of either in an [OrchestrationError]: that [ValueError],
    and the exception of the configuration read that opens
    [_loop_orchestration].  A negative [max_iterations] gives an empty
    [range], as 0 does.  [self.strategies] has an entry for every
    member of the enumeration, so the [if not orchestration_func]
    branch is never taken. *)
Definition orchestrate (config : Config) (repr : string → string)
    (clock : Clock) (agents : list Agent) (processed_input : ProcessedData)
    (strategy : string) : result (list Response) :=
  match OrchestrationStrategy_of_value strategy with
  | None =>
      Raise (OrchestrationError
               ("Error orquestando agentes: " +:+ repr strategy
                +:+ " is not a valid OrchestrationStrategy"))
  | Some SEQUENTIAL => Ok (_sequential_orchestration clock agents processed_input)
  | Some PARALLEL => Ok (_parallel_orchestration clock agents processed_input)
  | Some LOOP =>
      match config with
      | WithOrchestration max_iterations =>
          Ok (_loop_orchestration (Z.to_nat <$> max_iterations) clock agents
                processed_input)
      | Unreadable message =>
          Raise (OrchestrationError ("Error orquestando agentes: " +:+ message))
      end
  | Some CONDITIONAL =>
      Ok (_conditional_orchestration clock agents processed_input)
  end.

End Orchestrator.

(** ** Agent registry and discovery (src/cognitive-core/src/a2a/discovery.py) *)

(** An insertion-ordered [dict] with string keys, for the places where
    the order of [.values()] is returned to the caller. *)
Fixpoint odict_set {V} (key : string) (v : V) (d : list (string * V))
    : list (string * V) :=
  match d with
  | [] => [(key, v)]
  | (key', v') :: d =>
      if bool_decide (key = key') then (key, v) :: d
      else (key', v') :: odict_set key v d
  end.

Fixpoint odict_del {V} (key : string) (d : list (string * V))
    : list (string * V) :=
  match d with
  | [] => []
  | (key', v') :: d =>
      if bool_decide (key = key') then d else (key', v') :: odict_del key d
  end.

Fixpoint odict_get {V} (key : string) (d : list (string * V)) : option V :=
  match d with
  | [] => None
  | (key', v') :: d => if bool_decide (key = key') then Some v' else odict_get key d
  end.

(** The builtin exceptions of the lookups discovery.py performs:
    [obj.attr] on an object without that attribute, [obj[key]] on an
    object without [__getitem__], [del d[key]] on a missing key.
    Nothing in discovery.py catches them or reads their text. *)
Inductive builtin_exn : Type :=
  | AttributeError
  | TypeError
  | KeyError.

Inductive outcome (A : Type) : Type :=
  | Returns (a : A)
  | Raises (e : builtin_exn).
Arguments Returns {A} a.
Arguments Raises {A} e.

Definition outcome_bind {A B} (r : outcome A) (k : A → outcome B) : outcome B :=
  match r with
  | Returns a => k a
  | Raises e => Raises e
  end.

(** A list comprehension [[f(x) for x in l]]: the first raising
    element ends it. *)
Fixpoint comprehension {A B} (f : A → outcome B) (l : list A) : outcome (list B) :=
  match l with
  | [] => Returns []
  | x :: l =>
      outcome_bind (f x) (λ y,
        outcome_bind (comprehension f l) (λ ys, Returns (y :: ys)))
  end.

(** src/cognitive-core/src/shared/types.py: the pydantic models that
    agent_card.py re-exports and discovery.py imports. *)

Module AgentSkill.

(** [class AgentSkill(BaseModel)] *)
Record t : Type := mkAgentSkill {
  id : string;
  name : string;
  description : string;
  input_schema : pydict;
  output_schema : pydict
}.

(** [skill[key]]: a pydantic model has no [__getitem__], so
    subscripting it raises [TypeError] whatever the key. *)
Definition getitem (self : t) (key : string) : outcome pyval :=
  Raises TypeError.

End AgentSkill.

(** [class AuthenticationType(str, Enum)] *)
Inductive AuthenticationType : Type :=
  | OAUTH
  | API_KEY
  | BASIC
  | NONE.

Module AuthenticationConfig.

(** [class AuthenticationConfig(BaseModel)] *)
Record t : Type := mkAuthenticationConfig {
  type : AuthenticationType;
  authorization_endpoint : option string;
  token_endpoint : option string;
  scopes : option (list string)
}.

End AuthenticationConfig.

Module AgentCard.

(** [class AgentCard(BaseModel)].  The class declares these six
    fields and no others; a keyword the constructor is given beyond
    them ([id=], [metadata=], [endpoints=] at the call sites of
    agent_manager.py and multimodal_integration_agent.py) is dropped
    by pydantic, and a dictionary given in [skills] is validated into
    an [AgentSkill]. *)
Record t : Type := mkAgentCard {
  name : string;
  version : string;
  description : string;
  skills : list AgentSkill.t;
  authentication : option AuthenticationConfig.t;
  endpoint : option string
}.

(** [agent_card.id]: no such field, the lookup raises. *)
Definition id (self : t) : outcome string := Raises AttributeError.

(** [agent_card.metadata]: no such field, the lookup raises. *)
Definition metadata (self : t) : outcome pydict := Raises AttributeError.

End AgentCard.

Module AgentDiscovery.

(** The [query] dictionary: the two keys [_matches_query] looks for,
    each present or absent.  Other keys are never read. *)
Record Query : Type := mkQuery {
  skills : option (list string);
  metadata : option pydict
}.

(** [agent_registry] keeps insertion order, which [discover_agents]
    and [list_all_agents] expose; [discovery_cache] maps an id to the
    clock reading of its registration. *)
Record t : Type := mkAgentDiscovery {
  agent_registry : list (string * AgentCard.t);
  discovery_cache : gmap string string
}.

Definition init : t := mkAgentDiscovery [] ∅.

(** [register_agent].  Each of the two assignments evaluates
    [agent_card.id] before it stores anything. *)
Definition register_agent (self : t) (agent_card : AgentCard.t) (now : string)
    : t * outcome unit :=
  match AgentCard.id agent_card with
  | Raises e => (self, Raises e)
  | Returns key =>
      let self :=
        mkAgentDiscovery (odict_set key agent_card (agent_registry self))
                         (discovery_cache self) in
      match AgentCard.id agent_card with
      | Raises e => (self, Raises e)
      | Returns key =>
          (mkAgentDiscovery (agent_registry self)
                            (<[key := now]> (discovery_cache self)),
           Returns tt)
      end
  end.

(** [unregister_agent].  The membership test reads the registry
    only; the second [del] raises [KeyError] on an id the cache does
    not hold, after the registry has lost its entry. *)
Definition unregister_agent (self : t) (agent_id : string) : t * outcome unit :=
  match odict_get agent_id (agent_registry self) with
  | Some _ =>
      let self :=
        mkAgentDiscovery (odict_del agent_id (agent_registry self))
                         (discovery_cache self) in
      match discovery_cache self !! agent_id with
      | Some _ =>
          (mkAgentDiscovery (agent_registry self)
                            (delete agent_id (discovery_cache self)),
           Returns tt)
      | None => (self, Raises KeyError)
      end
  | None => (self, Returns tt)
  end.

(** Truthiness of [query]: [None] and the empty dictionary are falsy. *)
Definition truthy_query (query : option Query) : bool :=
  match query with
  | None => false
  | Some query => bool_decide (is_Some (skills query)) || bool_decide (is_Some (metadata query))
  end.

(** The [for key, value in required_metadata.items():] loop of
    [_matches_query]; the statement after it is [return True]. *)
Fixpoint metadata_loop (agent_card : AgentCard.t) (items : list (string * pyval))
    : outcome bool :=
  match items with
  | [] => Returns true
  | (key, value) :: items =>
      outcome_bind (AgentCard.metadata agent_card) (λ metadata,
        if negb (bool_decide (dict_get metadata key = value)) then Returns false
        else metadata_loop agent_card items)
  end.

(** [_matches_query] *)
Definition _matches_query (agent_card : AgentCard.t) (query : option Query)
    : outcome bool :=
  if negb (truthy_query query) then Returns true
  else
    match query with
    | None => Returns true
    | Some query =>
        outcome_bind
          match skills query with
          | Some required_skills =>
              outcome_bind
                (comprehension (λ skill, AgentSkill.getitem skill "name")
                   (AgentCard.skills agent_card))
                (λ agent_skills,
                   Returns
                     (forallb (λ skill, bool_decide (PyStr skill ∈ agent_skills))
                        required_skills))
          | None => Returns true
          end
          (λ skills_ok,
             if negb skills_ok then Returns false
             else
               match metadata query with
               | Some required_metadata =>
                   metadata_loop agent_card (map_to_list required_metadata)
               | None => Returns true
               end)
    end.

(** The [for agent_card in self.agent_registry.values():] loop of
    [discover_agents], with the mutable [matching_agents] list as
    accumulator. *)
Fixpoint discover_loop (query : option Query) (agent_cards : list AgentCard.t)
    (matching_agents : list AgentCard.t) : outcome (list AgentCard.t) :=
  match agent_cards with
  | [] => Returns matching_agents
  | agent_card :: agent_cards =>
      outcome_bind (_matches_query agent_card query) (λ matches,
        discover_loop query agent_cards
          (if matches then matching_agents ++ [agent_card] else matching_agents))
  end.

(** [discover_agents] *)
Definition discover_agents (self : t) (query : option Query)
    : outcome (list AgentCard.t) :=
  discover_loop query (snd <$> agent_registry self) [].

(** [get_agent_by_id] *)
Definition get_agent_by_id (self : t) (agent_id : string) : option AgentCard.t :=
  odict_get agent_id (agent_registry self).

(** [list_all_agents] *)
Definition list_all_agents (self : t) : list AgentCard.t :=
  snd <$> agent_registry self.

(** A call of one of the two mutating coroutines of the registry. *)
Inductive operation : Type :=
  | Register (agent_card : AgentCard.t) (now : string)
  | Unregister (agent_id : string).

(** The registry after the call; an exception the call raises is the
    caller's to handle and the object lives on. *)
Definition run_operation (self : t) (op : operation) : t :=
  match op with
  | Register agent_card now => fst (register_agent self agent_card now)
  | Unregister agent_id => fst (unregister_agent self agent_id)
  end.

Definition run_operations (self : t) (ops : list operation) : t :=
  foldl run_operation self ops.

End AgentDiscovery.

(** ** Context Manager (src/cognitive-core/src/a2a/context_manager.py) *)

Module ContextInfo.

(** [class ContextInfo] *)
Record t : Type := mkContextInfo {
  context_id : string;
  name : string;
  description : string;
  metadata : pydict;
  created_at : string;
  updated_at : string;
  task_ids : list string
}.

(** [ContextInfo.__init__]; [created_at] and [updated_at] are two
    readings of [get_timestamp()]. *)
Definition init (context_id : string) (name description : option string)
    (metadata : option pydict) (now1 now2 : string) : t :=
  {| context_id := context_id;
     name :=
       match name with
       | Some s => if truthy_str s then s
                   else "Context-" +:+ String.substring 0 8 context_id
       | None => "Context-" +:+ String.substring 0 8 context_id
       end;
     description :=
       match description with
       | Some s => if truthy_str s then s
                   else "Contexto para agrupación de tareas relacionadas"
       | None => "Contexto para agrupación de tareas relacionadas"
       end;
     metadata :=
       match metadata with
       | Some d => if truthy_dict d then d else ∅
       | None => ∅
       end;
     created_at := now1;
     updated_at := now2;
     task_ids := [] |}.

(** [add_task]: appends an id that is not listed yet and stamps
    [updated_at]; otherwise does nothing. *)
Definition add_task (self : t) (task_id now : string) : t :=
  if bool_decide (task_id ∈ task_ids self) then self
  else mkContextInfo (context_id self) (name self) (description self)
         (metadata self) (created_at self) now (task_ids self ++ [task_id]).

(** [remove_task] *)
Definition remove_task (self : t) (task_id now : string) : t * bool :=
  if bool_decide (task_id ∈ task_ids self) then
    (mkContextInfo (context_id self) (name self) (description self)
       (metadata self) (created_at self) now
       (py_list_remove task_id (task_ids self)), true)
  else (self, false).

(** [get_task_count] *)
Definition get_task_count (self : t) : nat := length (task_ids self).

(** A call of one of the two mutating methods of a [ContextInfo]. *)
Inductive operation : Type :=
  | AddTask (task_id now : string)
  | RemoveTask (task_id now : string).

Definition run_operation (self : t) (op : operation) : t :=
  match op with
  | AddTask task_id now => add_task self task_id now
  | RemoveTask task_id now => fst (remove_task self task_id now)
  end.

Definition run_operations (self : t) (ops : list operation) : t :=
  foldl run_operation self ops.

End ContextInfo.

Module ContextManager.

(** The context store of a [ContextManager].  The [_task_manager]
    reference is only followed by the task-resolving operations; see
    the note that precedes them. *)
Record t : Type := mkContextManager {
  _contexts : gmap string ContextInfo.t
}.

Definition init : t := mkContextManager ∅.

(** The [updates] dictionary of [update_context]: the three keys it
    looks for, each present or absent. *)
Record Updates : Type := mkUpdates {
  name : option string;
  description : option string;
  metadata : option pydict
}.

(** [_validate_context_info] *)
Definition _validate_context_info (context_info : ContextInfo.t) : result unit :=
  try_except
    (raise_if (negb (truthy_str (ContextInfo.context_id context_info)))
       (ValidationError "Contexto sin ID")
    (raise_if (negb (truthy_str (ContextInfo.name context_info)))
       (ValidationError ("Contexto " +:+ ContextInfo.context_id context_info
                         +:+ " sin nombre"))
    (raise_if (negb (truthy_str (ContextInfo.description context_info)))
       (ValidationError ("Contexto " +:+ ContextInfo.context_id context_info
                         +:+ " sin descripción"))
    (Ok tt))))
    (λ e, ValidationError
            ("Error validando contexto "
             +:+ ContextInfo.context_id context_info +:+ ": " +:+ str e)).

(** [create_context] *)
Definition create_context (self : t) (name description : option string)
    (metadata : option pydict) (context_id : option string)
    (uuid4 now1 now2 : string) : t * result ContextInfo.t :=
  let wrap (e : exn) := A2AProtocolError ("Error creando contexto: " +:+ str e) in
  let context_id :=
    match context_id with
    | Some s => if truthy_str s then s else uuid4
    | None => uuid4
    end in
  match _contexts self !! context_id with
  | Some _ =>
      (self, Raise (wrap (A2AProtocolError ("Contexto ya existe: " +:+ context_id))))
  | None =>
      let context_info :=
        ContextInfo.init context_id name description metadata now1 now2 in
      match _validate_context_info context_info with
      | Raise e => (self, Raise (wrap e))
      | Ok _ =>
          (mkContextManager (<[context_id := context_info]> (_contexts self)),
           Ok context_info)
      end
  end.

(** [get_context] *)
Definition get_context (self : t) (context_id : string) : option ContextInfo.t :=
  _contexts self !! context_id.

(** [update_context].  The stored [ContextInfo] is mutated in place
    before it is validated; [dict.update] lets the keys of the update
    win over the stored ones. *)
Definition update_context (self : t) (context_id : string) (updates : Updates)
    (now : string) : t * result ContextInfo.t :=
  let wrap (e : exn) :=
    A2AProtocolError ("Error actualizando contexto " +:+ context_id
                      +:+ ": " +:+ str e) in
  match _contexts self !! context_id with
  | None =>
      (self, Raise (wrap (A2AProtocolError ("Contexto no encontrado: "
                                            +:+ context_id))))
  | Some context_info =>
      let context_info :=
        ContextInfo.mkContextInfo
          (ContextInfo.context_id context_info)
          (default (ContextInfo.name context_info) (name updates))
          (default (ContextInfo.description context_info) (description updates))
          (match metadata updates with
           | Some m => m ∪ ContextInfo.metadata context_info
           | None => ContextInfo.metadata context_info
           end)
          (ContextInfo.created_at context_info)
          now
          (ContextInfo.task_ids context_info) in
      let self := mkContextManager (<[context_id := context_info]> (_contexts self)) in
      match _validate_context_info context_info with
      | Raise e => (self, Raise (wrap e))
      | Ok _ => (self, Ok context_info)
      end
  end.

(** The operations below follow the [_task_manager] reference.  The
    referenced object is shared with whoever else holds it, so its
    state is an argument and a result of each of them: [None] when the
    manager was built without a task manager, which is also the one
    falsy value of [self._task_manager]. *)

(** [delete_context].  The loop runs over the context's own
    [task_ids] list, which [TaskManager.delete_task] does not touch. *)
Definition delete_context (self : t) (_task_manager : option TaskManager.t)
    (context_id : string) (delete_tasks : bool)
    : t * option TaskManager.t * bool :=
  match _contexts self !! context_id with
  | None => (self, _task_manager, false)
  | Some context_info =>
      let _task_manager :=
        match _task_manager with
        | Some task_manager =>
            if delete_tasks then
              Some (foldl (λ task_manager task_id,
                             fst (TaskManager.delete_task task_manager task_id))
                          task_manager (ContextInfo.task_ids context_info))
            else Some task_manager
        | None => None
        end in
      (mkContextManager (delete context_id (_contexts self)), _task_manager, true)
  end.

(** [add_task_to_context]: the [A2AProtocolError] of an unknown
    context is caught by the method's own [except] and reported as
    [False]. *)
Definition add_task_to_context (self : t) (context_id task_id now : string)
    : t * bool :=
  match _contexts self !! context_id with
  | None => (self, false)
  | Some context_info =>
      (mkContextManager
         (<[context_id := ContextInfo.add_task context_info task_id now]>
            (_contexts self)), true)
  end.

(** [remove_task_from_context] *)
Definition remove_task_from_context (self : t) (context_id task_id now : string)
    : t * bool :=
  match _contexts self !! context_id with
  | None => (self, false)
  | Some context_info =>
      let '(context_info, removed) :=
        ContextInfo.remove_task context_info task_id now in
      (mkContextManager (<[context_id := context_info]> (_contexts self)), removed)
  end.

(** [get_context_tasks] *)
Definition get_context_tasks (self : t) (_task_manager : option TaskManager.t)
    (context_id : string) : list TaskManager.TaskInfo :=
  match _contexts self !! context_id with
  | None => []
  | Some context_info =>
      match _task_manager with
      | None => []
      | Some task_manager =>
          omap (λ task_id, TaskManager.get_task task_manager task_id)
               (ContextInfo.task_ids context_info)
      end
  end.

(** The dictionary [get_context_statistics] returns for a stored
    context. *)
Record ContextStatistics : Type := mkContextStatistics {
  stats_context_id : string;
  stats_name : string;
  stats_description : string;
  stats_total_tasks : nat;
  stats_status_counts : gmap string nat;
  stats_created_at : string;
  stats_updated_at : string;
  stats_metadata : pydict
}.

(** [for task in tasks: status_counts[status] =
    status_counts.get(status, 0) + 1] *)
Definition count_statuses (tasks : list TaskManager.TaskInfo) : gmap string nat :=
  foldl (λ status_counts task,
           let status := TaskManager.value (TaskManager.status task) in
           <[status := default 0 (status_counts !! status) + 1]> status_counts)
        ∅ tasks.

(** [get_context_statistics]; the empty dictionary returned for an
    unknown context is [None]. *)
Definition get_context_statistics (self : t)
    (_task_manager : option TaskManager.t) (context_id : string)
    : option ContextStatistics :=
  match _contexts self !! context_id with
  | None => None
  | Some context_info =>
      let tasks := get_context_tasks self _task_manager context_id in
      Some (mkContextStatistics context_id (ContextInfo.name context_info)
              (ContextInfo.description context_info) (length tasks)
              (count_statuses tasks) (ContextInfo.created_at context_info)
              (ContextInfo.updated_at context_info)
              (ContextInfo.metadata context_info))
  end.

(** [cleanup_empty_contexts]: collects the ids of the contexts without
    tasks, then deletes each with [delete_context(context_id)].  The
    ids are distinct keys, so the order in which the dictionary yields
    them is immaterial and left to [map_to_list]. *)
Definition cleanup_empty_contexts (self : t) (_task_manager : option TaskManager.t)
    : t * option TaskManager.t * nat :=
  let empty_contexts :=
    fst <$> List.filter
              (λ item, bool_decide (ContextInfo.get_task_count (snd item) = 0))
              (map_to_list (_contexts self)) in
  foldl (λ '(self, _task_manager, deleted_count) context_id,
           let '(self, _task_manager, deleted) :=
             delete_context self _task_manager context_id false in
           (self, _task_manager,
            if deleted then S deleted_count else deleted_count))
        (self, _task_manager, 0) empty_contexts.

End ContextManager.

(** ** Concrete states used to exercise the operations *)

Module Scenario.

Definition route_input : pydict :=
  {[ "origin" := PyStr "A"; "destination" := PyStr "B" ]}.

Definition route_output : pydict := {[ "distance_km" := PyInt 650 ]}.

(** [create_task("C1", "skill.route", {...}, "T1")] on a fresh manager. *)
Definition one_task : TaskManager.t :=
  fst (TaskManager.create_task TaskManager.init "C1" "skill.route" route_input
         (Some "T1") "uuid-1" "2024-01-01T00:00:00Z").

(** A second task [T2] in the same context. *)
Definition two_tasks : TaskManager.t :=
  fst (TaskManager.create_task one_task "C1" "skill.route" route_input
         (Some "T2") "uuid-2" "2024-01-01T00:00:01Z").

(** A third task [T3] in the same context. *)
Definition three_tasks : TaskManager.t :=
  fst (TaskManager.create_task two_tasks "C1" "skill.route" route_input
         (Some "T3") "uuid-3" "2024-01-01T00:00:02Z").

Definition task_T1 : TaskManager.TaskInfo :=
  TaskManager.mkTaskInfo "T1" "C1" TaskManager.PENDING "skill.route" route_input
    None None (Some "2024-01-01T00:00:00Z") None.

Definition task_T2 : TaskManager.TaskInfo :=
  TaskManager.mkTaskInfo "T2" "C1" TaskManager.PENDING "skill.route" route_input
    None None (Some "2024-01-01T00:00:01Z") None.

Definition event_named (name : string) : EventQueue.EventData :=
  EventQueue.mkEventData (Some name) None (Some (PyStr name)) None None None.

(** A queue of capacity 2 that holds two events. *)
Definition full_queue : EventQueue.t :=
  EventQueue.put
    (EventQueue.put (EventQueue.init 2) (event_named "e1") 1 "1.0" "t1")
    (event_named "e2") 0 "2.0" "t2".

Definition stamps (k : nat) : string * string :=
  (pretty k +:+ ".0", "t" +:+ pretty k).

(** An agent whose [execute] returns without touching its queue. *)
Definition quiet_agent : Orchestrator.Agent :=
  Orchestrator.mkAgent "quiet" (λ _ event_queue, (event_queue, Ok tt)).

(** An agent that answers with one normal-priority event. *)
Definition echo_agent : Orchestrator.Agent :=
  Orchestrator.mkAgent "echo"
    (λ context event_queue,
       (EventQueue.put event_queue
          (EventQueue.mkEventData None (Some "response")
             (Some (PyStr (RequestContext.message context))) None None None)
          0 "0.0" "t0",
        Ok tt)).

Definition hello : Orchestrator.ProcessedData :=
  Orchestrator.mkProcessedData (Some "hello") (Some "text").

(** The configuration [CognitiveCore] hands to its orchestrator: a
    [CoreConfig], which has no attribute [orchestration]. *)
Definition core_config : Orchestrator.Config :=
  Orchestrator.Unreadable
    "'CoreConfig' object has no attribute 'orchestration'".

(** [repr] on strings of printable ASCII characters that hold neither
    a quote nor a backslash: the string between single quotes.  The
    strategy names of the examples are such strings. *)
Definition repr_plain (s : string) : string := "'" +:+ s +:+ "'".

(** A card with one skill, as
    [AgentCard(name=..., description=..., skills=[...])] builds it,
    a query that lists the name of that skill and a query with one
    metadata constraint. *)
Definition bare_card : AgentCard.t :=
  AgentCard.mkAgentCard "agent-1" "1.0.0" "route planner"
    [AgentSkill.mkAgentSkill "s1" "routing" "route planning" ∅ ∅] None None.


Definition region_query : AgentDiscovery.Query :=
  AgentDiscovery.mkQuery None (Some {[ "region" := PyStr "eu" ]}).

(** A registry that holds the card under the key ["agent-1"], the
    state after [discovery.agent_registry["agent-1"] = card] and the
    like for the cache. *)
Definition one_card : AgentDiscovery.t :=
  AgentDiscovery.mkAgentDiscovery [("agent-1", bare_card)] {[ "agent-1" := "t0" ]}.

(** A stored context and an update that carries only metadata. *)
Definition context_C1 : ContextInfo.t :=
  ContextInfo.init "C1" (Some "Shipment") None
    (Some {[ "owner" := PyStr "ana"; "stage" := PyInt 1 ]}) "t0" "t0".

Definition one_context : ContextManager.t :=
  ContextManager.mkContextManager {[ "C1" := context_C1 ]}.

Definition stage_update : pydict :=
  {[ "stage" := PyInt 2; "carrier" := PyStr "sea" ]}.

(** An agent whose [execute] raises. *)
Definition failing_agent : Orchestrator.Agent :=
  Orchestrator.mkAgent "failing"
    (λ _ event_queue, (event_queue, Raise (AgentRaised "boom"))).

(** A context that lists two tasks, the second of which is not
    stored by the task manager [two_tasks]. *)
Definition listing_context : ContextManager.t :=
  fst (ContextManager.add_task_to_context
         (fst (ContextManager.add_task_to_context one_context "C1" "T1" "t1"))
         "C1" "T9" "t2").

End Scenario.

(** ** Definitions used to state the properties *)

Module Expected.

(** The record [update_task_status] leaves in the store: the requested
    status, the clock reading, and the payloads that were supplied. *)
Definition mutated (task_info : TaskManager.TaskInfo)
    (status : TaskManager.TaskStatus)
    (output_data : option pydict) (error_message : option string)
    (now : string) : TaskManager.TaskInfo :=
  TaskManager.mkTaskInfo
    (TaskManager.task_id task_info) (TaskManager.context_id task_info) status
    (TaskManager.skill_id task_info) (TaskManager.input_data task_info)
    (match output_data with
     | Some d => Some d
     | None => TaskManager.output_data task_info
     end)
    (match error_message with
     | Some m => Some m
     | None => TaskManager.error_message task_info
     end)
    (TaskManager.created_at task_info) (Some now).

(** The elements of a list at its second, fourth, ... position: the
    task ids that the iterator of [delete_context] never reaches. *)
Fixpoint every_second (l : list string) : list string :=
  match l with
  | _ :: b :: l => b :: every_second l
  | _ => []
  end.

(** The invariant of the context index: no context id is mapped to
    an empty list of task ids. *)
Definition index_nonempty (self : TaskManager.t) : Prop :=
  ∀ context_id ids,
    TaskManager._contexts self !! context_id = Some ids → ids ≠ [].

(** An agent is silent when its [execute], run on the fresh queue the
    orchestrator hands it, returns normally and leaves nothing for
    [get] to serve. *)
Definition silent (agent : Orchestrator.Agent) : Prop :=
  ∀ context,
    ∃ event_queue,
      Orchestrator.execute agent context
        (EventQueue.init EventQueue.default_max_size)
      = (event_queue, Ok tt)
      ∧ snd (EventQueue.get event_queue) = None.


(** Every stored task sits under its own id and is listed in the
    index of its own context. *)
Definition well_indexed (self : TaskManager.t) : Prop :=
  ∀ task_id task_info,
    TaskManager._tasks self !! task_id = Some task_info →
    TaskManager.task_id task_info = task_id
    ∧ ∃ ids,
        TaskManager._contexts self !! TaskManager.context_id task_info = Some ids
        ∧ task_id ∈ ids.

(** [n] successive calls of [get], with what each returned. *)
Fixpoint gets (n : nat) (self : EventQueue.t)
    : EventQueue.t * list (option EventQueue.Event) :=
  match n with
  | O => (self, [])
  | S n =>
      let '(self, served) := EventQueue.get self in
      let '(self, rest) := gets n self in
      (self, served :: rest)
  end.

(** The number of [put] calls in a sequence of queue operations. *)
Definition puts (ops : list EventQueue.operation) : nat :=
  length (List.filter (λ op, match op with
                             | EventQueue.Put _ _ _ _ => true
                             | _ => false
                             end) ops).

(** An agent is responsive when every run of its [execute] on a fresh
    queue either raises or leaves an event for [get] to serve. *)
Definition responsive (agent : Orchestrator.Agent) : Prop :=
  ∀ context, Orchestrator.invoke agent context ≠ Ok None.

(** The sum of the entries of a [status_counts] dictionary. *)
Definition counts_total (status_counts : gmap string nat) : nat :=
  map_fold (λ _ count total, count + total) 0 status_counts.

End Expected.

(** ** Proof automation *)


(** * Properties *)

(** ** Task Manager *)

Section TaskManagerProperties.
Import TaskManager Expected.

Lemma no_self_transition (status : TaskStatus) :
  bool_decide (status ∈ valid_transitions status) = false.
Proof. destruct status; reflexivity. Qed.

(** Every call of [update_task_status] on a stored task performs the
    assignments and then raises: the validation compares the new
    status with itself and the table has no self-loop. *)
Lemma update_task_status_stored self task_id task_info status output_data
    error_message now :
  _tasks self !! task_id = Some task_info →
  update_task_status self task_id status output_data error_message now
  = (mkTaskManager
       (<[task_id := mutated task_info status output_data error_message now]>
          (_tasks self))
       (_contexts self),
     Raise (A2AProtocolError
              ("Error actualizando estado de tarea " +:+ task_id
               +:+ ": Transición de estado inválida: "
               +:+ value status +:+ " -> " +:+ value status))).
Proof.
  intros Hstored. unfold update_task_status. rewrite Hstored. cbn beta iota zeta.
  unfold _validate_status_transition, raise_if. cbn [TaskManager.status].
  rewrite no_self_transition. reflexivity.
Qed.

(** C1 (the code departs from it): along a legal edge of the
    transition table [update_task_status] does not return the task;
    it raises an [A2AProtocolError] reporting the transition from the
    requested status to itself.  So do [start_task] on a Pending task
    and [complete_task] on an InProgress one. *)
Theorem update_task_status_legal_edge_raises self task_id task_info status
    output_data error_message now :
  _tasks self !! task_id = Some task_info →
  status ∈ valid_transitions (TaskManager.status task_info) →
  snd (update_task_status self task_id status output_data error_message now)
  = Raise (A2AProtocolError
             ("Error actualizando estado de tarea " +:+ task_id
              +:+ ": Transición de estado inválida: "
              +:+ value status +:+ " -> " +:+ value status)).
Proof.
  intros Hstored _. by rewrite (update_task_status_stored _ _ _ _ _ _ _ Hstored).
Qed.

Lemma start_task_pending_raises :
  snd (start_task Scenario.one_task "T1" "2024-01-01T00:01:00Z")
  = Raise (A2AProtocolError
             "Error actualizando estado de tarea T1: Transición de estado inválida: in-progress -> in-progress").
Proof.
  apply (update_task_status_legal_edge_raises Scenario.one_task "T1"
           Scenario.task_T1 IN_PROGRESS None None "2024-01-01T00:01:00Z").
  - vm_compute. reflexivity.
  - cbn. repeat constructor.
Defined.

(** C2 (the code departs from it): a request that is not an edge of
    the transition table does raise, but the stored task is not left
    as it was.  It carries the requested status, the new [updated_at]
    and the supplied payloads, because the assignments precede the
    validation and the [except] clause does not undo them. *)
Theorem update_task_status_illegal_edge_mutates self task_id task_info status
    output_data error_message now :
  _tasks self !! task_id = Some task_info →
  status ∉ valid_transitions (TaskManager.status task_info) →
  let '(self', r) :=
    update_task_status self task_id status output_data error_message now in
  is_raise r = true
  ∧ _tasks self' !! task_id
    = Some (mutated task_info status output_data error_message now)
  ∧ (status ≠ TaskManager.status task_info →
     _tasks self' !! task_id ≠ Some task_info).
Proof.
  intros Hstored _.
  rewrite (update_task_status_stored _ _ _ _ _ _ _ Hstored).
  cbn [_tasks]. rewrite lookup_insert_eq. split_and!; [done..|].
  intros Hne [= Heq]. apply Hne. by rewrite <- Heq.
Qed.

Lemma complete_task_pending_mutates :
  let '(self', r) :=
    complete_task Scenario.one_task "T1" Scenario.route_output
      "2024-01-01T00:01:00Z" in
  is_raise r = true
  ∧ _tasks self' !! "T1"
    = Some (mkTaskInfo "T1" "C1" COMPLETED "skill.route" Scenario.route_input
              (Some Scenario.route_output) None (Some "2024-01-01T00:00:00Z")
              (Some "2024-01-01T00:01:00Z"))
  ∧ (COMPLETED ≠ PENDING → _tasks self' !! "T1" ≠ Some Scenario.task_T1).
Proof.
  apply (update_task_status_illegal_edge_mutates Scenario.one_task "T1"
           Scenario.task_T1 COMPLETED (Some Scenario.route_output) None
           "2024-01-01T00:01:00Z").
  - vm_compute. reflexivity.
  - cbn. intros Hin. by apply (bool_decide_pack _) in Hin.
Defined.

(** [_validate_task_info] accepts a record whose four checked fields
    are non-empty. *)
Lemma _validate_task_info_ok task_info :
  truthy_str (task_id task_info) = true →
  truthy_str (context_id task_info) = true →
  truthy_str (skill_id task_info) = true →
  input_data task_info ≠ ∅ →
  _validate_task_info task_info = Ok tt.
Proof.
  intros Htask Hcontext Hskill Hinput. unfold _validate_task_info, truthy_dict.
  rewrite Htask, Hcontext, Hskill, bool_decide_eq_false_2 by done.
  reflexivity.
Qed.

(** Appending to the index entry of a context, creating the entry
    first when it is missing. *)
Lemma index_append (contexts : gmap string (list string)) context_id task_id :
  alter (λ ids, ids ++ [task_id]) context_id
    match contexts !! context_id with
    | None => <[context_id := []]> contexts
    | Some _ => contexts
    end
  = <[context_id := default [] (contexts !! context_id) ++ [task_id]]> contexts.
Proof.
  apply map_eq. intros k. destruct (contexts !! context_id) as [ids|] eqn:Hids;
    rewrite lookup_alter, !lookup_insert; case_decide; subst; cbn;
    rewrite ?Hids; try done.
  by rewrite decide_True.
Qed.

(** What [create_task] does whenever validation passes, whether or not
    the id is already stored: no lookup of [task_id] in [_tasks]
    precedes [self._tasks[task_id] = task_info]. *)
Lemma create_task_valid self context_id skill_id input_data task_id uuid4 now :
  truthy_str task_id = true →
  truthy_str context_id = true →
  truthy_str skill_id = true →
  input_data ≠ ∅ →
  create_task self context_id skill_id input_data (Some task_id) uuid4 now
  = (mkTaskManager
       (<[task_id := mkTaskInfo task_id context_id PENDING skill_id input_data
                       None None (Some now) None]> (_tasks self))
       (<[context_id := default [] (_contexts self !! context_id) ++ [task_id]]>
          (_contexts self)),
     Ok (mkTaskInfo task_id context_id PENDING skill_id input_data
           None None (Some now) None)).
Proof.
  intros Htask Hcontext Hskill Hinput. unfold create_task. rewrite Htask.
  rewrite _validate_task_info_ok by done. cbn beta iota zeta.
  by rewrite index_append.
Qed.

(** C3 (the code departs from it): [create_task] called with an id
    that is already stored raises nothing.  It returns a new Pending
    task, replaces the stored one and appends the id to the context's
    index once more. *)
Theorem create_task_existing_id_overwrites self context_id skill_id input_data
    task_id uuid4 now :
  is_Some (_tasks self !! task_id) →
  truthy_str task_id = true →
  truthy_str context_id = true →
  truthy_str skill_id = true →
  input_data ≠ ∅ →
  create_task self context_id skill_id input_data (Some task_id) uuid4 now
  = (mkTaskManager
       (<[task_id := mkTaskInfo task_id context_id PENDING skill_id input_data
                       None None (Some now) None]> (_tasks self))
       (<[context_id := default [] (_contexts self !! context_id) ++ [task_id]]>
          (_contexts self)),
     Ok (mkTaskInfo task_id context_id PENDING skill_id input_data
           None None (Some now) None)).
Proof. intros _. apply create_task_valid. Qed.

Lemma create_task_twice_same_id :
  create_task Scenario.one_task "C1" "skill.other" Scenario.route_output
    (Some "T1") "uuid-2" "2024-01-01T00:02:00Z"
  = (mkTaskManager
       (<["T1" := mkTaskInfo "T1" "C1" PENDING "skill.other"
                    Scenario.route_output None None
                    (Some "2024-01-01T00:02:00Z") None]>
          (_tasks Scenario.one_task))
       (<["C1" := default [] (_contexts Scenario.one_task !! "C1") ++ ["T1"]]>
          (_contexts Scenario.one_task)),
     Ok (mkTaskInfo "T1" "C1" PENDING "skill.other" Scenario.route_output
           None None (Some "2024-01-01T00:02:00Z") None)).
Proof.
  apply (create_task_existing_id_overwrites Scenario.one_task "C1" "skill.other"
           Scenario.route_output "T1" "uuid-2" "2024-01-01T00:02:00Z").
  - exists Scenario.task_T1. vm_compute. reflexivity.
  - reflexivity.
  - reflexivity.
  - reflexivity.
  - intros Hempty. apply (f_equal (λ d : pydict, d !! "distance_km")) in Hempty.
    vm_compute in Hempty. discriminate Hempty.
Defined.

(** The index after the duplicate call lists the id twice. *)
Example create_task_twice_index :
  _contexts (fst (create_task Scenario.one_task "C1" "skill.other"
                    Scenario.route_output (Some "T1") "uuid-2"
                    "2024-01-01T00:02:00Z")) !! "C1"
  = Some ["T1"; "T1"].
Proof. vm_compute. reflexivity. Qed.

(** The second half of C3 holds: with a fresh id and non-empty
    arguments [create_task] returns a Pending task, stores it and
    appends its id to the index of its context. *)
Lemma create_task_fresh_id self context_id skill_id input_data task_id uuid4 now :
  _tasks self !! task_id = None →
  truthy_str task_id = true →
  truthy_str context_id = true →
  truthy_str skill_id = true →
  input_data ≠ ∅ →
  let '(self', r) :=
    create_task self context_id skill_id input_data (Some task_id) uuid4 now in
  ∃ task_info,
    r = Ok task_info
    ∧ TaskManager.status task_info = PENDING
    ∧ TaskManager.task_id task_info = task_id
    ∧ get_task self' task_id = Some task_info
    ∧ _contexts self' !! context_id
      = Some (default [] (_contexts self !! context_id) ++ [task_id]).
Proof.
  intros _ Htask Hcontext Hskill Hinput. rewrite create_task_valid by done.
  eexists. split_and!; [reflexivity..| |].
  - unfold get_task. cbn. by rewrite lookup_insert_eq.
  - cbn. by rewrite lookup_insert_eq.
Qed.

Lemma py_list_remove_length x l :
  (length (py_list_remove x l) ≤ length l)%nat.
Proof.
  induction l as [|y l IH]; cbn; [done|]. case_bool_decide; cbn; lia.
Qed.

(** [delete_task] never lengthens the list object of any context. *)
Lemma delete_task_index_length self task_id context_id :
  (length (task_ids_object (fst (delete_task self task_id)) context_id)
   ≤ length (task_ids_object self context_id))%nat.
Proof.
  unfold delete_task, task_ids_object.
  destruct (_tasks self !! task_id) as [task_info|]; [|done]. cbn.
  destruct (_contexts self !! TaskManager.context_id task_info) as [ids|] eqn:Hids;
    [|done].
  destruct (decide (TaskManager.context_id task_info = context_id)) as [<-|Hne].
  - rewrite Hids. cbn.
    assert (Hlen : (length (if bool_decide (task_id ∈ ids)
                            then py_list_remove task_id ids else ids)
                    ≤ length ids)%nat).
    { case_bool_decide; [apply py_list_remove_length|done]. }
    destruct (if bool_decide (task_id ∈ ids) then _ else _).
    + rewrite lookup_delete_eq. cbn. lia.
    + rewrite lookup_insert_eq. done.
  - destruct (if bool_decide (task_id ∈ ids) then _ else _).
    + by rewrite lookup_delete_ne.
    + by rewrite lookup_insert_ne.
Qed.

(** The fuel [delete_context] supplies is enough: once it covers the
    part of the list beyond the iterator's index, more fuel does not
    change the result, so the loop has ended by [StopIteration] and
    not by exhaustion. *)
Lemma delete_context_loop_fuel fuel extra context_id i deleted_count self :
  (length (task_ids_object self context_id) ≤ i + fuel)%nat →
  delete_context_loop (fuel + extra) context_id i deleted_count self
  = delete_context_loop fuel context_id i deleted_count self.
Proof.
  revert i deleted_count self.
  induction fuel as [|fuel IH]; intros i deleted_count self Hlen.
  - destruct extra as [|extra]; [done|]. cbn.
    rewrite (lookup_ge_None_2 _ i) by lia. done.
  - cbn. destruct (task_ids_object self context_id !! i) as [task_id|]; [|done].
    pose proof (delete_task_index_length self task_id context_id) as Hshrink.
    destruct (delete_task self task_id) as [self' deleted]. cbn in Hshrink.
    apply IH. lia.
Qed.

Lemma delete_context_enough_fuel extra self context_id :
  delete_context_loop (length (task_ids_object self context_id) + extra)
    context_id 0 0 self
  = delete_context self context_id.
Proof. unfold delete_context. apply delete_context_loop_fuel. lia. Qed.

(** C4 (the code departs from it): on a context that indexes two
    tasks [delete_context] deletes only the first.  Removing it from
    the list being iterated shifts the second into the slot the
    iterator has already passed, so the loop ends after one round: the
    count returned is 1, and the second task is still stored, still
    indexed and still returned by [get_tasks_by_context]. *)
Theorem delete_context_two_tasks_deletes_one self context_id a b task_a task_b :
  a ≠ b →
  _contexts self !! context_id = Some [a; b] →
  _tasks self !! a = Some task_a →
  TaskManager.context_id task_a = context_id →
  _tasks self !! b = Some task_b →
  delete_context self context_id
  = (mkTaskManager (delete a (_tasks self))
                   (<[context_id := [b]]> (_contexts self)), 1)
  ∧ get_tasks_by_context (fst (delete_context self context_id)) context_id
    = [task_b].
Proof.
  intros Hab Hindex Ha Hctx Hb.
  assert (Hrun : delete_context self context_id
                 = (mkTaskManager (delete a (_tasks self))
                      (<[context_id := [b]]> (_contexts self)), 1)).
  { unfold delete_context, task_ids_object at 1. rewrite Hindex. cbn.
    unfold task_ids_object at 1. rewrite Hindex. cbn.
    unfold delete_task. rewrite Ha, Hctx, Hindex.
    rewrite bool_decide_eq_true_2 by apply list_elem_of_here.
    cbn. rewrite bool_decide_eq_true_2 by done.
    unfold task_ids_object. cbn. by rewrite lookup_insert_eq. }
  split; [done|]. rewrite Hrun. unfold get_tasks_by_context. cbn.
  rewrite lookup_insert_eq. cbn. by rewrite lookup_delete_ne, Hb.
Qed.

Lemma delete_context_two_tasks_scenario :
  delete_context Scenario.two_tasks "C1"
  = (mkTaskManager (delete "T1" (_tasks Scenario.two_tasks))
                   (<["C1" := ["T2"]]> (_contexts Scenario.two_tasks)), 1)
  ∧ get_tasks_by_context (fst (delete_context Scenario.two_tasks "C1")) "C1"
    = [Scenario.task_T2].
Proof.
  apply (delete_context_two_tasks_deletes_one Scenario.two_tasks "C1" "T1" "T2"
           Scenario.task_T1 Scenario.task_T2).
  - discriminate.
  - vm_compute. reflexivity.
  - vm_compute. reflexivity.
  - reflexivity.
  - vm_compute. reflexivity.
Defined.

(** *** The general shape of the defect

    On a context whose index lists [n] distinct tasks of that context,
    [delete_context] deletes the tasks at the first, third, ...
    position, returns ⌈n/2⌉, and leaves the others stored and
    indexed. *)

Lemma py_list_remove_middle x kept rest :
  x ∉ kept → py_list_remove x (kept ++ x :: rest) = kept ++ rest.
Proof.
  induction kept as [|y kept IH]; cbn; intros Hnotin.
  - by rewrite bool_decide_eq_true_2.
  - apply not_elem_of_cons in Hnotin as [Hne Hnotin].
    rewrite bool_decide_eq_false_2 by done. by rewrite IH.
Qed.

Lemma every_second_elem_of l t : t ∈ every_second l → t ∈ l.
Proof.
  enough (Hboth : (t ∈ every_second l → t ∈ l)
                  ∧ ∀ a, t ∈ every_second (a :: l) → t ∈ a :: l) by apply Hboth.
  induction l as [|b l [IH1 IH2]].
  - split; [done|]. intros a. cbn. by intros ?%elem_of_nil.
  - split; [apply IH2|]. intros a. cbn.
    intros [->|Hin]%elem_of_cons; set_solver.
Qed.

Lemma delete_task_at self context_id kept a rest task_a :
  _tasks self !! a = Some task_a →
  TaskManager.context_id task_a = context_id →
  task_ids_object self context_id = kept ++ a :: rest →
  a ∉ kept →
  ∃ self',
    delete_task self a = (self', true)
    ∧ _tasks self' = delete a (_tasks self)
    ∧ task_ids_object self' context_id = kept ++ rest.
Proof.
  intros Ha Hctx Hlist Hnotin. unfold task_ids_object in Hlist.
  destruct (_contexts self !! context_id) as [ids|] eqn:Hindex; cbn in Hlist;
    [subst ids|by destruct kept].
  unfold delete_task. rewrite Ha, Hctx, Hindex.
  rewrite bool_decide_eq_true_2 by set_solver.
  rewrite py_list_remove_middle by done.
  eexists. split_and!; [reflexivity|reflexivity|].
  unfold task_ids_object. cbn.
  destruct (kept ++ rest) as [|x l] eqn:Hleft.
  - by rewrite lookup_delete_eq.
  - by rewrite lookup_insert_eq.
Qed.

Lemma delete_context_loop_every_second context_id fuel :
  ∀ kept rest deleted_count self,
    (length rest ≤ fuel)%nat →
    NoDup (kept ++ rest) →
    task_ids_object self context_id = kept ++ rest →
    (∀ t, t ∈ rest →
          ∃ task_info, _tasks self !! t = Some task_info
                       ∧ TaskManager.context_id task_info = context_id) →
    ∃ self',
      delete_context_loop fuel context_id (length kept) deleted_count self
      = (self', deleted_count + Nat.div2 (S (length rest)))
      ∧ task_ids_object self' context_id = kept ++ every_second rest
      ∧ ∀ t, t ∈ kept ++ every_second rest → _tasks self' !! t = _tasks self !! t.
Proof.
  induction fuel as [|fuel IH]; intros kept rest deleted_count self Hfuel Hnodup
    Hlist Hstored.
  - destruct rest; [|cbn in Hfuel; lia]. exists self. cbn.
    by rewrite Nat.add_0_r.
  - destruct rest as [|a rest].
    { exists self. cbn. rewrite Hlist, app_nil_r, Nat.add_0_r.
      by rewrite lookup_ge_None_2. }
    apply NoDup_app in Hnodup as (Hkept & Hdisjoint & Hrest).
    apply NoDup_cons in Hrest as [Ha_rest Hrest].
    assert (Ha_kept : a ∉ kept).
    { intros Hin. apply (Hdisjoint a Hin), list_elem_of_here. }
    destruct (Hstored a) as (task_a & Ha & Hctx); [set_solver|].
    destruct (delete_task_at self context_id kept a rest task_a)
      as (self1 & Hdelete & Htasks1 & Hlist1); [done..|].
    cbn [delete_context_loop]. rewrite Hlist.
    rewrite lookup_app_r, Nat.sub_diag by done. cbn [lookup list_lookup].
    rewrite Hdelete.
    destruct rest as [|b rest].
    + exists self1. split_and!.
      * destruct fuel; cbn; [f_equal; lia|].
        rewrite Hlist1, app_nil_r, lookup_ge_None_2 by lia. f_equal. lia.
      * by rewrite Hlist1.
      * intros t Ht. rewrite Htasks1, lookup_delete_ne; [done|].
        cbn in Ht. rewrite app_nil_r in Ht. by intros ->.
    + apply NoDup_cons in Hrest as [Hb_rest Hrest].
      destruct (IH (kept ++ [b]) rest (S deleted_count) self1)
        as (self' & Hloop & Hlist' & Htasks').
      * cbn in Hfuel. lia.
      * rewrite <- app_assoc. cbn. apply NoDup_app. split_and!; [done| |].
        -- intros t Ht Hin. apply (Hdisjoint t Ht).
           by apply list_elem_of_further.
        -- by apply NoDup_cons.
      * by rewrite Hlist1, <- app_assoc.
      * intros t Ht. rewrite Htasks1, lookup_delete_ne; [apply Hstored; set_solver|].
        intros ->. set_solver.
      * exists self'. rewrite length_app, Nat.add_comm in Hloop. cbn in Hloop.
        split_and!.
        -- rewrite Hloop. f_equal. cbn. lia.
        -- rewrite Hlist', <- app_assoc. done.
        -- intros t Ht. rewrite Htasks'; [|by rewrite <- app_assoc].
           rewrite Htasks1, lookup_delete_ne; [done|].
           intros ->. cbn in Ht.
           apply elem_of_app in Ht as [Ht|[->|Ht%every_second_elem_of]%elem_of_cons];
             set_solver.
Qed.

Lemma delete_context_skips_every_second self context_id ids :
  _contexts self !! context_id = Some ids →
  NoDup ids →
  (∀ t, t ∈ ids →
        ∃ task_info, _tasks self !! t = Some task_info
                     ∧ TaskManager.context_id task_info = context_id) →
  snd (delete_context self context_id) = Nat.div2 (S (length ids))
  ∧ task_ids_object (fst (delete_context self context_id)) context_id
    = every_second ids
  ∧ ∀ t, t ∈ every_second ids →
         _tasks (fst (delete_context self context_id)) !! t = _tasks self !! t.
Proof.
  intros Hindex Hnodup Hstored.
  assert (Hlist : task_ids_object self context_id = ids)
    by (unfold task_ids_object; by rewrite Hindex).
  destruct (delete_context_loop_every_second context_id (length ids) [] ids 0 self)
    as (self' & Hloop & Hlist' & Htasks'); [done..|].
  unfold delete_context. rewrite Hlist. cbn in Hloop. rewrite Hloop. done.
Qed.

(** So the count returned falls short of [n] as soon as [n ≥ 2]. *)
Lemma delete_context_count_short self context_id ids :
  _contexts self !! context_id = Some ids →
  NoDup ids →
  (∀ t, t ∈ ids →
        ∃ task_info, _tasks self !! t = Some task_info
                     ∧ TaskManager.context_id task_info = context_id) →
  (2 ≤ length ids)%nat →
  (snd (delete_context self context_id) < length ids)%nat.
Proof.
  intros Hindex Hnodup Hstored Hlen.
  destruct (delete_context_skips_every_second self context_id ids) as [-> _];
    [done..|].
  pose proof (Nat.div2_odd (S (length ids))) as Hhalf.
  destruct (Nat.odd (S (length ids))); cbn [Nat.b2n] in Hhalf; lia.
Qed.

(** With three tasks the first and the third are deleted and the
    second survives. *)
Example delete_context_three_tasks :
  snd (delete_context Scenario.three_tasks "C1") = 2
  ∧ get_tasks_by_context (fst (delete_context Scenario.three_tasks "C1")) "C1"
    = [Scenario.task_T2].
Proof. vm_compute. split; reflexivity. Qed.

(** With at most one indexed task the loop does what the docstring
    says. *)
Lemma delete_context_single_task self context_id a task_a :
  _contexts self !! context_id = Some [a] →
  _tasks self !! a = Some task_a →
  TaskManager.context_id task_a = context_id →
  delete_context self context_id
  = (mkTaskManager (delete a (_tasks self)) (delete context_id (_contexts self)), 1).
Proof.
  intros Hindex Ha Hctx.
  unfold delete_context, task_ids_object at 1. rewrite Hindex. cbn.
  unfold task_ids_object at 1. rewrite Hindex. cbn.
  unfold delete_task. rewrite Ha, Hctx, Hindex.
  rewrite bool_decide_eq_true_2 by apply list_elem_of_here.
  cbn. by rewrite bool_decide_eq_true_2 by done.
Qed.

(** *** The context index never holds an empty list *)

Lemma init_index_nonempty : index_nonempty init.
Proof. intros context_id ids. cbn. by rewrite lookup_empty. Qed.

Lemma create_task_index_nonempty self context_id skill_id input_data task_id
    uuid4 now :
  index_nonempty self →
  index_nonempty
    (fst (create_task self context_id skill_id input_data task_id uuid4 now)).
Proof.
  intros Hinv. unfold create_task.
  destruct (_validate_task_info _); [|done]. cbn [fst].
  intros c ids. cbn [_contexts]. rewrite index_append, lookup_insert.
  case_decide.
  - intros [= <-]. by destruct (default [] _).
  - apply Hinv.
Qed.

Lemma delete_task_index_nonempty self task_id :
  index_nonempty self → index_nonempty (fst (delete_task self task_id)).
Proof.
  intros Hinv. unfold delete_task.
  destruct (_tasks self !! task_id) as [task_info|]; [|done]. cbn [fst].
  intros c ids. cbn [_contexts].
  destruct (_contexts self !! TaskManager.context_id task_info) as [old|];
    [|apply Hinv].
  destruct (if bool_decide (task_id ∈ old) then _ else _) as [|x rest].
  - rewrite lookup_delete. case_decide; [done|apply Hinv].
  - rewrite lookup_insert. case_decide; [by intros [= <-]|apply Hinv].
Qed.

Lemma run_calls_index_nonempty calls self :
  index_nonempty self → index_nonempty (run_calls self calls).
Proof.
  revert self. induction calls as [|c calls IH]; intros self Hinv; [done|].
  cbn. apply IH. destruct c; cbn.
  - by apply create_task_index_nonempty.
  - by apply delete_task_index_nonempty.
Qed.

(** [delete_task] on the last task a context indexes unlinks the
    context's entry. *)
Lemma delete_task_last_unlinks self task_id task_info :
  _tasks self !! task_id = Some task_info →
  _contexts self !! TaskManager.context_id task_info = Some [task_id] →
  _contexts (fst (delete_task self task_id)) !! TaskManager.context_id task_info
  = None.
Proof.
  intros Htask Hindex. unfold delete_task. rewrite Htask, Hindex.
  rewrite bool_decide_eq_true_2 by apply list_elem_of_here.
  cbn. rewrite bool_decide_eq_true_2 by done. cbn. apply lookup_delete_eq.
Qed.

(** C10: in every state reached from a fresh [TaskManager] by calls of
    [create_task] and [delete_task], no context id is mapped to an
    empty list; deleting the last task a context indexes removes the
    context's entry; and [total_contexts] of [get_task_statistics] is
    the number of contexts that index at least one task. *)
Theorem context_index_never_empty (calls : list call) :
  let self := run_calls init calls in
  (∀ context_id ids, _contexts self !! context_id = Some ids → ids ≠ [])
  ∧ (∀ task_id task_info,
       _tasks self !! task_id = Some task_info →
       _contexts self !! TaskManager.context_id task_info = Some [task_id] →
       _contexts (fst (delete_task self task_id))
         !! TaskManager.context_id task_info = None)
  ∧ total_contexts (get_task_statistics self)
    = size (filter (λ entry, entry.2 ≠ []) (_contexts self)).
Proof.
  intros self.
  assert (Hinv : index_nonempty self)
    by apply run_calls_index_nonempty, init_index_nonempty.
  split_and!.
  - exact Hinv.
  - apply delete_task_last_unlinks.
  - cbn. f_equal. symmetry. apply map_filter_id. intros c ids. apply Hinv.
Qed.

Lemma context_index_never_empty_scenario :
  let self :=
    run_calls init
      [CreateTask "C1" "skill.route" Scenario.route_input (Some "T1") "uuid-1"
         "2024-01-01T00:00:00Z";
       CreateTask "C2" "skill.route" Scenario.route_input None "uuid-2"
         "2024-01-01T00:00:01Z";
       DeleteTask "T1"] in
  (∀ context_id ids, _contexts self !! context_id = Some ids → ids ≠ [])
  ∧ (∀ task_id task_info,
       _tasks self !! task_id = Some task_info →
       _contexts self !! TaskManager.context_id task_info = Some [task_id] →
       _contexts (fst (delete_task self task_id))
         !! TaskManager.context_id task_info = None)
  ∧ total_contexts (get_task_statistics self)
    = size (filter (λ entry, entry.2 ≠ []) (_contexts self)).
Proof. apply context_index_never_empty. Defined.

Example context_index_after_last_delete :
  map_to_list
    (_contexts
       (run_calls init
          [CreateTask "C1" "skill.route" Scenario.route_input (Some "T1")
             "uuid-1" "2024-01-01T00:00:00Z";
           CreateTask "C2" "skill.route" Scenario.route_input None "uuid-2"
             "2024-01-01T00:00:01Z";
           DeleteTask "T1"]))
  = [("C2", ["uuid-2"])].
Proof. vm_compute. reflexivity. Qed.

(** *** Further properties of the task store *)

Lemma _validate_task_info_raises task_info :
  truthy_str (context_id task_info) = false
  ∨ truthy_str (skill_id task_info) = false
  ∨ input_data task_info = ∅ →
  ∃ message, _validate_task_info task_info = Raise (ValidationError message).
Proof.
  intros Hbad. unfold _validate_task_info, raise_if, try_except, truthy_dict.
  destruct (truthy_str (task_id task_info)); cbn; [|by eexists].
  destruct (truthy_str (context_id task_info)); cbn; [|by eexists].
  destruct (truthy_str (skill_id task_info)); cbn; [|by eexists].
  destruct Hbad as [?|[?|Hempty]]; [done..|].
  rewrite bool_decide_eq_true_2 by done. cbn. by eexists.
Qed.

(** X1: [create_task] with an empty [context_id], an empty
    [skill_id] or an empty [input_data] raises an [A2AProtocolError]
    and leaves both dictionaries of the manager as they were, whatever
    id was asked for. *)
Theorem create_task_invalid_rejected self context_id skill_id input_data task_id
    uuid4 now :
  truthy_str context_id = false ∨ truthy_str skill_id = false ∨ input_data = ∅ →
  ∃ message,
    create_task self context_id skill_id input_data task_id uuid4 now
    = (self, Raise (A2AProtocolError message)).
Proof.
  intros Hbad. unfold create_task.
  match goal with
  | |- context [_validate_task_info ?ti] =>
      destruct (_validate_task_info_raises ti Hbad) as [message ->]
  end.
  by eexists.
Qed.

Lemma create_task_empty_skill_rejected :
  ∃ message,
    create_task Scenario.one_task "C1" "" Scenario.route_input (Some "T9")
      "uuid-9" "2024-01-01T00:03:00Z"
    = (Scenario.one_task, Raise (A2AProtocolError message)).
Proof.
  apply (create_task_invalid_rejected Scenario.one_task "C1" ""
           Scenario.route_input (Some "T9") "uuid-9" "2024-01-01T00:03:00Z").
  right. left. reflexivity.
Defined.

Lemma omap_lookup_insert_fresh (tasks : gmap string TaskInfo) task_id task_info
    (ids : list string) :
  task_id ∉ ids →
  omap (λ i, <[task_id := task_info]> tasks !! i) ids = omap (λ i, tasks !! i) ids.
Proof.
  intros Hfresh. induction ids as [|i ids IH]; [done|].
  apply not_elem_of_cons in Hfresh as [Hne Hfresh]. cbn.
  rewrite lookup_insert_ne by done. by rewrite IH.
Qed.

(** X2: after a [create_task] that passes validation, with an id the
    context does not list yet, [get_task] returns the new Pending
    task, every other id resolves as before, and
    [get_tasks_by_context] of that context is the former list followed
    by the new task. *)
Theorem create_task_then_lookup self context_id skill_id input_data task_id
    uuid4 now :
  truthy_str task_id = true →
  truthy_str context_id = true →
  truthy_str skill_id = true →
  input_data ≠ ∅ →
  task_id ∉ default [] (_contexts self !! context_id) →
  let self' :=
    fst (create_task self context_id skill_id input_data (Some task_id) uuid4 now) in
  let task_info :=
    mkTaskInfo task_id context_id PENDING skill_id input_data None None
      (Some now) None in
  get_task self' task_id = Some task_info
  ∧ (∀ other, other ≠ task_id → get_task self' other = get_task self other)
  ∧ get_tasks_by_context self' context_id
    = get_tasks_by_context self context_id ++ [task_info].
Proof.
  intros Htask Hcontext Hskill Hinput Hfresh. cbn zeta.
  rewrite create_task_valid by done. unfold get_task, get_tasks_by_context.
  cbn [fst _tasks _contexts]. split_and!.
  - apply lookup_insert_eq.
  - intros other Hother. by apply lookup_insert_ne.
  - rewrite lookup_insert_eq. cbn [default from_option]. unfold id.
    rewrite omap_app. cbn.
    rewrite lookup_insert_eq. by rewrite omap_lookup_insert_fresh.
Qed.

Lemma create_second_task_then_lookup :
  let self' :=
    fst (create_task Scenario.one_task "C1" "skill.route" Scenario.route_input
           (Some "T2") "uuid-2" "2024-01-01T00:00:01Z") in
  get_task self' "T2" = Some Scenario.task_T2
  ∧ (∀ other, other ≠ "T2" → get_task self' other = get_task Scenario.one_task other)
  ∧ get_tasks_by_context self' "C1"
    = get_tasks_by_context Scenario.one_task "C1" ++ [Scenario.task_T2].
Proof.
  apply (create_task_then_lookup Scenario.one_task "C1" "skill.route"
           Scenario.route_input "T2" "uuid-2" "2024-01-01T00:00:01Z");
    try reflexivity.
  - intros Hempty.
    apply (f_equal (λ d : pydict, d !! "origin")) in Hempty.
    vm_compute in Hempty. discriminate Hempty.
  - replace (default [] (_contexts Scenario.one_task !! "C1")) with ["T1"]
      by (vm_compute; reflexivity).
    intros Hin. by apply (bool_decide_pack _) in Hin.
Defined.

(** X3: [update_task_status] never touches the context index, never
    adds or removes a stored id, never changes another task, and
    leaves the id, the context, the skill, the input and the creation
    time of the task it is called on as they were; called with an
    unknown id it changes nothing at all. *)
Theorem update_task_status_frame self task_id status output_data error_message
    now :
  let self' :=
    fst (update_task_status self task_id status output_data error_message now) in
  _contexts self' = _contexts self
  ∧ dom (_tasks self') = dom (_tasks self)
  ∧ (∀ other, other ≠ task_id → _tasks self' !! other = _tasks self !! other)
  ∧ (∀ task_info,
       _tasks self !! task_id = Some task_info →
       ∃ updated,
         _tasks self' !! task_id = Some updated
         ∧ TaskManager.task_id updated = TaskManager.task_id task_info
         ∧ context_id updated = context_id task_info
         ∧ skill_id updated = skill_id task_info
         ∧ input_data updated = input_data task_info
         ∧ created_at updated = created_at task_info)
  ∧ (_tasks self !! task_id = None → self' = self).
Proof.
  cbn zeta. destruct (_tasks self !! task_id) as [task_info|] eqn:Hstored.
  - rewrite (update_task_status_stored _ _ _ _ _ _ _ Hstored).
    cbn [fst _tasks _contexts]. split_and!; [done| | | |done].
    + rewrite dom_insert_L. apply elem_of_dom_2 in Hstored.
      apply set_eq. intros i. rewrite elem_of_union, elem_of_singleton.
      split; [by intros [->|?]|by right].
    + intros other Hother. by apply lookup_insert_ne.
    + intros ? [= <-]. eexists. rewrite lookup_insert_eq.
      split_and!; reflexivity.
  - unfold update_task_status. rewrite Hstored. cbn. split_and!; done.
Qed.

(** X4: [delete_task] of an unknown id returns [False] and changes
    nothing.  Of a stored id it returns [True]; afterwards the id no
    longer resolves, the store holds one task fewer, every other task
    is as before and so is the index entry of every context other
    than the task's own. *)
Theorem delete_task_removes self task_id :
  (_tasks self !! task_id = None → delete_task self task_id = (self, false))
  ∧ (∀ task_info,
       _tasks self !! task_id = Some task_info →
       let '(self', deleted) := delete_task self task_id in
       deleted = true
       ∧ get_task self' task_id = None
       ∧ S (size (_tasks self')) = size (_tasks self)
       ∧ (∀ other, other ≠ task_id → get_task self' other = get_task self other)
       ∧ (∀ c, c ≠ context_id task_info →
               _contexts self' !! c = _contexts self !! c)).
Proof.
  split.
  - intros Hmissing. unfold delete_task. by rewrite Hmissing.
  - intros task_info Hstored. unfold delete_task, get_task. rewrite Hstored.
    cbn [_tasks _contexts]. split_and!.
    + done.
    + apply lookup_delete_eq.
    + rewrite map_size_delete, Hstored.
      assert (size (_tasks self) ≠ 0)
        by (intros Hzero%map_size_empty_inv; by rewrite Hzero in Hstored).
      lia.
    + intros other Hother. by apply lookup_delete_ne.
    + intros c Hc.
      destruct (_contexts self !! context_id task_info) as [ids|]; [|done].
      destruct (if bool_decide (task_id ∈ ids) then _ else _).
      * by rewrite lookup_delete_ne.
      * by rewrite lookup_insert_ne.
Qed.

(** X5: creating a task under an id that is neither stored nor
    listed in its context, and deleting it again, gives back the state
    before the two calls, provided the context was not indexed with an
    empty list. *)
Theorem create_then_delete_restores self context_id skill_id input_data task_id
    uuid4 now :
  truthy_str task_id = true →
  truthy_str context_id = true →
  truthy_str skill_id = true →
  input_data ≠ ∅ →
  _tasks self !! task_id = None →
  task_id ∉ default [] (_contexts self !! context_id) →
  _contexts self !! context_id ≠ Some [] →
  delete_task
    (fst (create_task self context_id skill_id input_data (Some task_id) uuid4 now))
    task_id
  = (self, true).
Proof.
  intros Htask Hcontext Hskill Hinput Hunstored Hunlisted Hnonempty.
  rewrite create_task_valid by done. unfold delete_task.
  cbn [fst _tasks _contexts]. rewrite lookup_insert_eq.
  cbn [TaskManager.context_id]. rewrite lookup_insert_eq.
  rewrite bool_decide_eq_true_2
    by (apply elem_of_app; right; apply list_elem_of_here).
  rewrite py_list_remove_middle by done. rewrite app_nil_r.
  rewrite delete_insert_id by done. destruct self as [tasks contexts]. cbn in *.
  destruct (contexts !! context_id) as [[|x ids]|] eqn:Hindex; cbn.
  - done.
  - by rewrite insert_insert_eq, insert_id.
  - by rewrite delete_insert_id.
Qed.

Lemma create_then_delete_second_task :
  delete_task
    (fst (create_task Scenario.one_task "C1" "skill.route" Scenario.route_input
            (Some "T2") "uuid-2" "2024-01-01T00:00:01Z"))
    "T2"
  = (Scenario.one_task, true).
Proof.
  apply (create_then_delete_restores Scenario.one_task "C1" "skill.route"
           Scenario.route_input "T2" "uuid-2" "2024-01-01T00:00:01Z");
    try reflexivity.
  - intros Hempty.
    apply (f_equal (λ d : pydict, d !! "origin")) in Hempty.
    vm_compute in Hempty. discriminate Hempty.
  - replace (default [] (_contexts Scenario.one_task !! "C1")) with ["T1"]
      by (vm_compute; reflexivity).
    intros Hin. by apply (bool_decide_pack _) in Hin.
  - replace (_contexts Scenario.one_task !! "C1") with (Some ["T1"])
      by (vm_compute; reflexivity).
    discriminate.
Defined.

Lemma status_partition (tasks : list TaskInfo) :
  length tasks
  = length (filter (λ task, TaskManager.status task = PENDING) tasks)
    + length (filter (λ task, TaskManager.status task = IN_PROGRESS) tasks)
    + length (filter (λ task, TaskManager.status task = COMPLETED) tasks)
    + length (filter (λ task, TaskManager.status task = FAILED) tasks)
    + length (filter (λ task, TaskManager.status task = AUTH_REQUIRED) tasks).
Proof.
  induction tasks as [|task tasks IH]; [done|].
  rewrite !filter_cons. destruct (TaskManager.status task) eqn:Hstatus;
    repeat case_decide; try congruence; cbn [length]; lia.
Qed.

(** X6: in [get_task_statistics] the five entries of [status_counts]
    add up to [total_tasks]. *)
Theorem statistics_counts_add_up self :
  let stats := get_task_statistics self in
  total_tasks stats
  = status_counts stats PENDING + status_counts stats IN_PROGRESS
    + status_counts stats COMPLETED + status_counts stats FAILED
    + status_counts stats AUTH_REQUIRED.
Proof.
  cbn. unfold get_tasks_by_status. rewrite <- status_partition.
  by rewrite length_fmap, length_map_to_list.
Qed.

(** *** Invariants of the store under all four mutators *)

Lemma py_list_remove_other x y l :
  x ≠ y → y ∈ l → y ∈ py_list_remove x l.
Proof.
  intros Hne. induction l as [|z l IH]; cbn; [done|].
  intros [->|Hin]%elem_of_cons.
  - rewrite bool_decide_eq_false_2 by done. apply list_elem_of_here.
  - case_bool_decide; [done|]. by apply list_elem_of_further, IH.
Qed.

Lemma create_task_well_indexed self context_id skill_id input_data task_id
    uuid4 now :
  well_indexed self →
  well_indexed
    (fst (create_task self context_id skill_id input_data task_id uuid4 now)).
Proof.
  intros Hinv. unfold create_task. cbn zeta.
  generalize (match task_id with
              | Some s => if truthy_str s then s else uuid4
              | None => uuid4
              end).
  intros actual. destruct (_validate_task_info _); [|done]. cbn [fst].
  intros i task_info. cbn [_tasks _contexts]. rewrite index_append.
  rewrite lookup_insert. case_decide as Hid.
  - intros [= <-]. subst i. cbn. split; [done|]. eexists.
    rewrite lookup_insert_eq.
    split; [done|]. apply elem_of_app. right. apply list_elem_of_here.
  - intros Hstored. destruct (Hinv i task_info Hstored) as (Hkey & ids & Hids & Hin).
    split; [done|]. rewrite lookup_insert. case_decide as Hctx.
    + eexists. split; [done|]. rewrite Hctx, Hids. cbn.
      apply elem_of_app. by left.
    + by exists ids.
Qed.

Lemma update_task_status_well_indexed self task_id status output_data
    error_message now :
  well_indexed self →
  well_indexed
    (fst (update_task_status self task_id status output_data error_message now)).
Proof.
  intros Hinv. destruct (_tasks self !! task_id) as [old|] eqn:Hstored.
  - rewrite (update_task_status_stored _ _ _ _ _ _ _ Hstored). cbn [fst].
    intros i task_info. cbn [_tasks _contexts]. rewrite lookup_insert.
    case_decide as Hid.
    + intros [= <-]. subst i. cbn. by apply Hinv.
    + apply Hinv.
  - unfold update_task_status. by rewrite Hstored.
Qed.

Lemma delete_task_well_indexed self task_id :
  well_indexed self → well_indexed (fst (delete_task self task_id)).
Proof.
  intros Hinv. unfold delete_task.
  destruct (_tasks self !! task_id) as [deleted|] eqn:Hdeleted; [|done].
  cbn [fst]. intros i task_info. cbn [_tasks _contexts].
  rewrite lookup_delete. case_decide as Hid; [done|].
  intros Hstored. destruct (Hinv i task_info Hstored) as (Hkey & ids & Hids & Hin).
  split; [done|].
  destruct (decide (context_id deleted = context_id task_info)) as [Hsame|Hother].
  - rewrite Hsame, Hids.
    assert (Hkept : i ∈ (if bool_decide (task_id ∈ ids)
                         then py_list_remove task_id ids else ids)).
    { case_bool_decide; [by apply py_list_remove_other|done]. }
    destruct (if bool_decide (task_id ∈ ids) then _ else _) as [|x rest] eqn:Hleft.
    + by apply elem_of_nil in Hkept.
    + eexists. by rewrite lookup_insert_eq.
  - destruct (_contexts self !! context_id deleted) as [others|]; [|by exists ids].
    destruct (if bool_decide (task_id ∈ others) then _ else _).
    + exists ids. by rewrite lookup_delete_ne.
    + exists ids. by rewrite lookup_insert_ne.
Qed.

(** Whatever [delete_task] preserves, the loop of [delete_context]
    preserves. *)
Lemma delete_context_loop_preserves (P : t → Prop) :
  (∀ self task_id, P self → P (fst (delete_task self task_id))) →
  ∀ fuel context_id i deleted_count self,
    P self → P (fst (delete_context_loop fuel context_id i deleted_count self)).
Proof.
  intros Hstep fuel context_id. induction fuel as [|fuel IH];
    intros i deleted_count self HP; [done|].
  cbn. destruct (task_ids_object self context_id !! i) as [task_id|]; [|done].
  specialize (Hstep self task_id HP).
  destruct (delete_task self task_id) as [self' deleted]. by apply IH.
Qed.

Lemma run_operation_invariant self op :
  well_indexed self ∧ index_nonempty self →
  well_indexed (run_operation self op) ∧ index_nonempty (run_operation self op).
Proof.
  intros [Hindexed Hnonempty].
  destruct op as [c skill input i uuid4 now|i status output message now|i|c]; cbn.
  - split; [by apply create_task_well_indexed|by apply create_task_index_nonempty].
  - split; [by apply update_task_status_well_indexed|].
    intros c ids. destruct (_tasks self !! i) as [old|] eqn:Hstored.
    + rewrite (update_task_status_stored _ _ _ _ _ _ _ Hstored). apply Hnonempty.
    + unfold update_task_status. rewrite Hstored. apply Hnonempty.
  - split; [by apply delete_task_well_indexed|by apply delete_task_index_nonempty].
  - unfold delete_context. split.
    + apply delete_context_loop_preserves; [|done].
      intros ? ?. apply delete_task_well_indexed.
    + apply delete_context_loop_preserves; [|done].
      intros ? ?. apply delete_task_index_nonempty.
Qed.

(** X7: in every state reached from a fresh [TaskManager] by calls
    of [create_task], [update_task_status], [delete_task] and
    [delete_context], each stored task carries the id it is stored
    under and is among the tasks [get_tasks_by_context] returns for
    its own context, and no context is indexed with an empty list. *)
Theorem reachable_tasks_indexed (ops : list operation) :
  let self := run_operations init ops in
  (∀ task_id task_info,
     _tasks self !! task_id = Some task_info →
     TaskManager.task_id task_info = task_id
     ∧ task_info ∈ get_tasks_by_context self (context_id task_info))
  ∧ (∀ context_id ids, _contexts self !! context_id = Some ids → ids ≠ []).
Proof.
  cbn zeta.
  assert (Hinv : well_indexed (run_operations init ops)
                 ∧ index_nonempty (run_operations init ops)).
  { unfold run_operations.
    assert (Hinit : well_indexed init ∧ index_nonempty init).
    { split; [|apply init_index_nonempty]. intros i task_info. cbn.
      by rewrite lookup_empty. }
    revert Hinit. generalize init.
    induction ops as [|op ops IH]; intros self Hself; [done|].
    cbn. by apply IH, run_operation_invariant. }
  destruct Hinv as [Hindexed Hnonempty]. split; [|exact Hnonempty].
  intros task_id task_info Hstored.
  destruct (Hindexed task_id task_info Hstored) as (Hkey & ids & Hids & Hin).
  split; [done|]. unfold get_tasks_by_context. rewrite Hids. cbn.
  apply list_elem_of_omap. by exists task_id.
Qed.

Lemma delete_task_size self task_id :
  size (_tasks self)
  = size (_tasks (fst (delete_task self task_id)))
    + (if snd (delete_task self task_id) then 1 else 0).
Proof.
  unfold delete_task. destruct (_tasks self !! task_id) as [task_info|] eqn:Hstored;
    cbn; [|lia].
  rewrite map_size_delete, Hstored.
  assert (size (_tasks self) ≠ 0)
    by (intros Hzero%map_size_empty_inv; by rewrite Hzero in Hstored).
  lia.
Qed.

Lemma delete_task_subset self task_id i task_info :
  _tasks (fst (delete_task self task_id)) !! i = Some task_info →
  _tasks self !! i = Some task_info.
Proof.
  unfold delete_task. destruct (_tasks self !! task_id); [|done]. cbn.
  rewrite lookup_delete. by case_decide.
Qed.

Lemma delete_context_loop_count fuel context_id :
  ∀ i deleted_count self,
    let '(self', n) := delete_context_loop fuel context_id i deleted_count self in
    size (_tasks self) + deleted_count = size (_tasks self') + n
    ∧ (n ≤ deleted_count + fuel)%nat
    ∧ ∀ j task_info, _tasks self' !! j = Some task_info →
                     _tasks self !! j = Some task_info.
Proof.
  induction fuel as [|fuel IH]; intros i deleted_count self; cbn.
  { split_and!; [done|lia|done]. }
  destruct (task_ids_object self context_id !! i) as [task_id|].
  2:{ split_and!; [done|lia|done]. }
  pose proof (delete_task_size self task_id) as Hsize.
  pose proof (delete_task_subset self task_id) as Hsubset.
  destruct (delete_task self task_id) as [self1 deleted]. cbn in Hsize, Hsubset.
  specialize (IH (S i) (if deleted then S deleted_count else deleted_count) self1).
  destruct (delete_context_loop fuel context_id (S i) _ self1) as [self' n].
  destruct IH as (Hcount & Hbound & Hkeeps).
  split_and!; [destruct deleted; lia..|]. intros j task_info Hj.
  by apply Hsubset, Hkeeps.
Qed.

(** X8: the number [delete_context] returns is the number of tasks
    that left the store; it never exceeds the length of the context's
    index; no task appears or changes; and for a context that is not
    indexed the call returns 0 and changes nothing. *)
Theorem delete_context_counts_removed self context_id :
  let '(self', n) := delete_context self context_id in
  size (_tasks self) = size (_tasks self') + n
  ∧ (n ≤ length (task_ids_object self context_id))%nat
  ∧ (∀ task_id task_info,
       _tasks self' !! task_id = Some task_info →
       _tasks self !! task_id = Some task_info)
  ∧ (_contexts self !! context_id = None → self' = self ∧ n = 0).
Proof.
  unfold delete_context.
  pose proof (delete_context_loop_count
                (length (task_ids_object self context_id)) context_id 0 0 self)
    as Hloop.
  destruct (delete_context_loop _ context_id 0 0 self) as [self' n] eqn:Hrun.
  destruct Hloop as (Hcount & Hbound & Hkeeps).
  split_and!; [lia|lia|done|].
  intros Hnone. unfold task_ids_object in Hrun. rewrite Hnone in Hrun.
  cbn in Hrun. by injection Hrun as <- <-.
Qed.

End TaskManagerProperties.

(** ** Event Queue *)

Section EventQueueProperties.
Import EventQueue.

(** C5: on a queue that holds exactly [max_size] events, one more
    [put] of any event with any priority changes nothing but the drop
    counter, which grows by one: the three lanes, [size()], the
    capacity and the processed counter are as before.  The coroutine
    has no result and no raising path, which the type of [put]
    records. *)
Theorem put_on_full_queue_drops self event_data priority now_stamp now :
  size self = max_size self →
  put self event_data priority now_stamp now
  = mkEventQueue (max_size self) (high_priority_queue self)
      (normal_priority_queue self) (low_priority_queue self)
      (total_events_processed self) (S (total_events_dropped self))
  ∧ size (put self event_data priority now_stamp now) = max_size self
  ∧ total_events_dropped (put self event_data priority now_stamp now)
    = S (total_events_dropped self).
Proof.
  intros Hfull. unfold size in Hfull.
  assert (Hput : put self event_data priority now_stamp now
                 = mkEventQueue (max_size self) (high_priority_queue self)
                     (normal_priority_queue self) (low_priority_queue self)
                     (total_events_processed self)
                     (S (total_events_dropped self))).
  { unfold put. rewrite bool_decide_eq_true_2 by lia. reflexivity. }
  rewrite Hput. split_and!; [reflexivity| |reflexivity].
  rewrite <- Hfull. reflexivity.
Qed.

Lemma put_on_full_queue_scenario :
  put Scenario.full_queue (Scenario.event_named "e3") 1 "3.0" "t3"
  = mkEventQueue 2 (high_priority_queue Scenario.full_queue)
      (normal_priority_queue Scenario.full_queue)
      (low_priority_queue Scenario.full_queue) 0 1
  ∧ size (put Scenario.full_queue (Scenario.event_named "e3") 1 "3.0" "t3") = 2%Z
  ∧ total_events_dropped
      (put Scenario.full_queue (Scenario.event_named "e3") 1 "3.0" "t3")
    = 1.
Proof.
  apply (put_on_full_queue_drops Scenario.full_queue (Scenario.event_named "e3")
           1 "3.0" "t3").
  vm_compute. reflexivity.
Defined.






End EventQueueProperties.

Section EventQueueFurtherProperties.
Import EventQueue Expected.

(** *** Further properties of the queue *)

(** X9: [peek] returns exactly what [get] would return next, and
    that is [None] exactly when [is_empty] holds. *)
Theorem peek_mirrors_get self :
  peek self = snd (get self)
  ∧ (is_empty self = true ↔ peek self = None).
Proof.
  unfold peek, get, is_empty, _get_total_size.
  destruct (high_priority_queue self) as [|h high],
           (normal_priority_queue self) as [|n normal],
           (low_priority_queue self) as [|l low]; cbn [snd head length];
    (split; [reflexivity|]); rewrite bool_decide_eq_true;
    (split; [intros Hsize; try reflexivity; lia|intros Hnone; try reflexivity;
             discriminate Hnone]).
Qed.

Lemma gets_low capacity low processed dropped :
  gets (length low) (mkEventQueue capacity [] [] low processed dropped)
  = (mkEventQueue capacity [] [] [] (processed + length low) dropped,
     Some <$> low).
Proof.
  revert processed. induction low as [|event low IH]; intros processed; cbn.
  - by rewrite Nat.add_0_r.
  - rewrite IH. do 2 f_equal. lia.
Qed.

Lemma gets_normal capacity normal low processed dropped :
  gets (length (normal ++ low))
    (mkEventQueue capacity [] normal low processed dropped)
  = (mkEventQueue capacity [] [] [] (processed + length (normal ++ low)) dropped,
     Some <$> normal ++ low).
Proof.
  revert processed. induction normal as [|event normal IH]; intros processed.
  - cbn [app]. apply gets_low.
  - cbn. rewrite IH. do 2 f_equal. lia.
Qed.

(** X10: draining a queue with as many [get] calls as it holds
    events serves the whole high lane, then the whole normal lane,
    then the whole low lane, each oldest first; it leaves the three
    lanes empty, adds the number of events to the processed counter,
    and the next [get] returns [None]. *)
Theorem gets_serves_lanes_in_order self :
  let queued :=
    high_priority_queue self ++ normal_priority_queue self
    ++ low_priority_queue self in
  let drained :=
    mkEventQueue (max_size self) [] [] []
      (total_events_processed self + length queued) (total_events_dropped self) in
  gets (length queued) self = (drained, Some <$> queued)
  ∧ get drained = (drained, None).
Proof.
  cbn zeta. split; [|reflexivity].
  destruct self as [capacity high normal low processed dropped]. cbn.
  revert processed. induction high as [|event high IH]; intros processed.
  - cbn [app]. apply gets_normal.
  - cbn. rewrite IH. do 2 f_equal. lia.
Qed.

Lemma run_operation_capacity self op :
  (0 ≤ max_size self)%Z →
  (_get_total_size self ≤ max_size self)%Z →
  max_size (run_operation self op) = max_size self
  ∧ (_get_total_size (run_operation self op) ≤ max_size self)%Z.
Proof.
  intros Hcap Hsize. destruct op as [event_data priority now_stamp now| |]; cbn.
  - unfold put. case_bool_decide as Hfull; [done|].
    unfold _get_total_size in *.
    repeat case_bool_decide;
      cbn [max_size high_priority_queue normal_priority_queue
           low_priority_queue];
      rewrite ?length_app; cbn [length]; (split; [done|lia]).
  - unfold get, _get_total_size in *.
    destruct self as [capacity high normal low processed dropped].
    cbn [max_size high_priority_queue normal_priority_queue
         low_priority_queue] in *.
    destruct high, normal, low;
      cbn [fst max_size high_priority_queue normal_priority_queue
           low_priority_queue length] in *; (split; [done|lia]).
  - split; [done|]. unfold _get_total_size.
    cbn [clear high_priority_queue normal_priority_queue low_priority_queue
         length]. lia.
Qed.

(** X11: a queue built with a capacity [max_size ≥ 0] never holds
    more than [max_size] events, whatever sequence of [put], [get]
    and [clear] calls it has seen, and its capacity never changes. *)
Theorem size_never_exceeds_capacity capacity ops :
  (0 ≤ capacity)%Z →
  let self := run_operations (init capacity) ops in
  max_size self = capacity ∧ (0 ≤ size self ≤ capacity)%Z.
Proof.
  intros Hcap. cbn zeta. unfold run_operations, size.
  assert (Hinit : max_size (init capacity) = capacity
                  ∧ (_get_total_size (init capacity) ≤ capacity)%Z)
    by (split; [done|unfold _get_total_size; cbn; lia]).
  revert Hinit. generalize (init capacity).
  induction ops as [|op ops IH]; intros self [Hmax Hsize]; cbn.
  - split; [done|]. split; [unfold _get_total_size; lia|done].
  - apply IH. rewrite <- Hmax in *.
    destruct (run_operation_capacity self op Hcap Hsize) as [-> ?]. done.
Qed.

Lemma size_never_exceeds_capacity_two :
  let self :=
    run_operations (init 2)
      [Put (Scenario.event_named "e1") 1 "1.0" "t1";
       Put (Scenario.event_named "e2") 0 "2.0" "t2";
       Put (Scenario.event_named "e3") (-1) "3.0" "t3";
       Get;
       Put (Scenario.event_named "e4") 0 "4.0" "t4"] in
  max_size self = 2%Z ∧ (0 ≤ size self ≤ 2)%Z.
Proof. apply (size_never_exceeds_capacity 2). lia. Defined.

Lemma run_operation_accounting self op :
  let sum q :=
    (length (high_priority_queue q) + length (normal_priority_queue q)
     + length (low_priority_queue q)
     + total_events_processed q + total_events_dropped q)%nat in
  match op with
  | Put _ _ _ _ => sum (run_operation self op) = S (sum self)
  | Get => sum (run_operation self op) = sum self
  | Clear => (sum (run_operation self op) ≤ sum self)%nat
  end.
Proof.
  cbn zeta. destruct op as [event_data priority now_stamp now| |]; cbn.
  - unfold put. repeat case_bool_decide; cbn; rewrite ?length_app; cbn; lia.
  - unfold get. destruct self as [capacity high normal low processed dropped].
    destruct high, normal, low; cbn; lia.
  - lia.
Qed.

(** X12: every event handed to [put] is accounted for.  After any
    sequence of [put] and [get] calls on a fresh queue, the number of
    [put] calls equals the events still queued plus
    [total_events_processed] plus [total_events_dropped]; [clear] can
    only make the right-hand side smaller. *)
Theorem every_put_is_accounted_for capacity ops :
  let self := run_operations (init capacity) ops in
  let accounted :=
    (length (high_priority_queue self) + length (normal_priority_queue self)
     + length (low_priority_queue self)
     + total_events_processed self + total_events_dropped self)%nat in
  (accounted ≤ puts ops)%nat
  ∧ (Forall (λ op, op ≠ Clear) ops → accounted = puts ops).
Proof.
  cbn zeta. unfold run_operations.
  enough (Hgen : ∀ self,
    let sum q :=
      (length (high_priority_queue q) + length (normal_priority_queue q)
       + length (low_priority_queue q)
       + total_events_processed q + total_events_dropped q)%nat in
    (sum (foldl run_operation self ops) ≤ sum self + puts ops)%nat
    ∧ (Forall (λ op, op ≠ Clear) ops →
       sum (foldl run_operation self ops) = (sum self + puts ops)%nat)).
  { destruct (Hgen (init capacity)) as [Hle Heq]. cbn in Hle, Heq.
    split; [exact Hle|exact Heq]. }
  induction ops as [|op ops IH]; intros self; cbn zeta.
  - unfold puts. cbn. split; [lia|intros _; lia].
  - cbn [foldl]. destruct (IH (run_operation self op)) as [Hle Heq].
    pose proof (run_operation_accounting self op) as Hstep. cbn zeta in Hstep.
    unfold puts in *. destruct op; cbn [List.filter length] in *.
    + split; [lia|]. intros Hall. apply Forall_cons in Hall as [_ Hall].
      specialize (Heq Hall). lia.
    + split; [lia|]. intros Hall. apply Forall_cons in Hall as [_ Hall].
      specialize (Heq Hall). lia.
    + split; [lia|]. intros Hall. apply Forall_cons in Hall as [Hclear _].
      done.
Qed.

(** With room, [put] inserts the new event at one place of the
    sequence in which the lanes are scanned and served. *)
Lemma put_inserts self event_data priority now_stamp now :
  is_full self = false →
  ∃ before after,
    high_priority_queue self ++ normal_priority_queue self
    ++ low_priority_queue self = before ++ after
    ∧ (let self' := put self event_data priority now_stamp now in
       high_priority_queue self' ++ normal_priority_queue self'
       ++ low_priority_queue self'
       = before ++ [make_event event_data priority now_stamp now] ++ after)
    ∧ total_events_dropped (put self event_data priority now_stamp now)
      = total_events_dropped self
    ∧ total_events_processed (put self event_data priority now_stamp now)
      = total_events_processed self.
Proof.
  intros Hroom. unfold is_full in Hroom. apply bool_decide_eq_false in Hroom.
  unfold put. rewrite bool_decide_eq_false_2 by done.
  repeat case_bool_decide;
    cbn [high_priority_queue normal_priority_queue low_priority_queue
         total_events_dropped total_events_processed].
  - exists (high_priority_queue self),
           (normal_priority_queue self ++ low_priority_queue self).
    by rewrite <- !app_assoc.
  - exists (high_priority_queue self ++ normal_priority_queue self
            ++ low_priority_queue self), [].
    by rewrite !app_nil_r, <- !app_assoc.
  - exists (high_priority_queue self ++ normal_priority_queue self),
           (low_priority_queue self).
    by rewrite <- !app_assoc.
Qed.

(** X13: on a queue with room, [put] makes [size()] grow by exactly
    one and leaves both counters alone; [get_events_by_type] for the
    type of the new event then returns one event more than before,
    the new one included, and returns the same list as before for
    every other type. *)
Theorem put_then_get_events_by_type self event_data priority now_stamp now :
  is_full self = false →
  let event := make_event event_data priority now_stamp now in
  let self' := put self event_data priority now_stamp now in
  size self' = (size self + 1)%Z
  ∧ total_events_dropped self' = total_events_dropped self
  ∧ total_events_processed self' = total_events_processed self
  ∧ event ∈ get_events_by_type self' (event_type event)
  ∧ length (get_events_by_type self' (event_type event))
    = S (length (get_events_by_type self (event_type event)))
  ∧ (∀ other, other ≠ event_type event →
              get_events_by_type self' other = get_events_by_type self other).
Proof.
  intros Hroom. cbn zeta.
  destruct (put_inserts self event_data priority now_stamp now Hroom)
    as (before & after & Hold & Hnew & Hdropped & Hprocessed).
  set (event := make_event event_data priority now_stamp now) in *.
  assert (Hsize : ∀ q, size q
                       = Z.of_nat (length (high_priority_queue q
                                           ++ normal_priority_queue q
                                           ++ low_priority_queue q))).
  { intros q. unfold size, _get_total_size. rewrite !length_app. lia. }
  unfold get_events_by_type. rewrite !Hsize, Hold, Hnew.
  rewrite !List.filter_app. cbn [List.filter].
  rewrite bool_decide_eq_true_2 by done. split_and!.
  - rewrite !length_app. cbn [length]. lia.
  - done.
  - done.
  - rewrite !list_elem_of_In, !in_app_iff. right. left. by left.
  - rewrite !length_app. cbn [length]. lia.
  - intros other Hother. rewrite !List.filter_app. cbn [List.filter].
    by rewrite bool_decide_eq_false_2 by done.
Qed.

Lemma put_then_get_events_by_type_scenario :
  let event := make_event (Scenario.event_named "e3") 0 "3.0" "t3" in
  let self := put (init 5) (Scenario.event_named "e1") 1 "1.0" "t1" in
  let self' := put self (Scenario.event_named "e3") 0 "3.0" "t3" in
  size self' = (size self + 1)%Z
  ∧ total_events_dropped self' = total_events_dropped self
  ∧ total_events_processed self' = total_events_processed self
  ∧ event ∈ get_events_by_type self' (event_type event)
  ∧ length (get_events_by_type self' (event_type event))
    = S (length (get_events_by_type self (event_type event)))
  ∧ (∀ other, other ≠ event_type event →
              get_events_by_type self' other = get_events_by_type self other).
Proof.
  apply (put_then_get_events_by_type
           (put (init 5) (Scenario.event_named "e1") 1 "1.0" "t1")
           (Scenario.event_named "e3") 0 "3.0" "t3").
  vm_compute. reflexivity.
Defined.

End EventQueueFurtherProperties.

(** ** Orchestrator *)

Section OrchestratorProperties.
Import Orchestrator Expected.

Lemma invoke_silent agent context : silent agent → invoke agent context = Ok None.
Proof.
  intros Hsilent. destruct (Hsilent context) as (event_queue & Hexec & Hget).
  unfold invoke. rewrite Hexec. cbn. by rewrite Hget.
Qed.

Lemma sequential_loop_silent clock processed_input agents tick responses :
  Forall silent agents →
  sequential_loop clock processed_input agents tick responses = responses.
Proof.
  intros Hsilent. revert tick.
  induction Hsilent as [|agent agents Hagent _ IH]; intros tick; [done|].
  cbn. rewrite invoke_silent by done. apply IH.
Qed.

Lemma conditional_loop_silent clock processed_input agents tick responses :
  Forall silent agents →
  conditional_loop clock processed_input agents tick responses = responses.
Proof.
  intros Hsilent. revert tick.
  induction Hsilent as [|agent agents Hagent _ IH]; intros tick; [done|].
  cbn. rewrite invoke_silent by done. apply IH.
Qed.

Lemma loop_agents_silent clock processed_input iteration agents tick responses :
  Forall silent agents →
  loop_agents clock processed_input iteration agents tick responses
  = (responses, tick + length agents).
Proof.
  intros Hsilent. revert tick.
  induction Hsilent as [|agent agents Hagent _ IH]; intros tick.
  - cbn. by rewrite Nat.add_0_r.
  - cbn. rewrite invoke_silent by done. rewrite IH. f_equal. lia.
Qed.

Lemma loop_iterations_silent clock processed_input agents remaining iteration
    tick responses :
  Forall silent agents →
  loop_iterations clock processed_input agents remaining iteration tick responses
  = responses.
Proof.
  intros Hsilent. revert iteration tick.
  induction remaining as [|remaining IH]; intros iteration tick; [done|].
  cbn. rewrite loop_agents_silent by done. cbn. rewrite app_nil_r. apply IH.
Qed.

(** No strategy written as a [for agent in agents:] loop yields more
    than one record per agent. *)
Lemma sequential_loop_length clock processed_input agents tick responses :
  (length (sequential_loop clock processed_input agents tick responses)
   ≤ length responses + length agents)%nat.
Proof.
  revert tick responses.
  induction agents as [|agent agents IH]; intros tick responses; cbn; [lia|].
  destruct (invoke agent _) as [[response|]|e];
    etrans; [apply IH| |apply IH| |apply IH|]; rewrite ?length_app; cbn; lia.
Qed.

(** The sibling path: [_parallel_orchestration] yields one record per
    agent whatever the agents do. *)
Lemma parallel_one_record_per_agent clock agents processed_input :
  length (_parallel_orchestration clock agents processed_input) = length agents.
Proof. unfold _parallel_orchestration. apply length_imap. Qed.

Lemma execute_agent_async_silent now agent processed_input :
  silent agent →
  _execute_agent_async now agent processed_input
  = mkResponse (name agent) None None None (Some "no_response") None None None.
Proof.
  intros Hsilent. unfold _execute_agent_async. by rewrite invoke_silent.
Qed.

(** C7 (the code departs from it): an agent whose [execute] completes
    without placing an event contributes no record under the
    Sequential, Loop and Conditional strategies, so a non-empty list
    of such agents yields the empty list; only the Parallel strategy,
    through [_execute_agent_async], keeps one record per agent.  The
    Loop strategy is stated for a configuration it can read, whatever
    the bound; the other three hold for every configuration. *)
Theorem silent_agents_leave_no_record config max_iterations repr clock agents
    processed_input :
  agents ≠ [] →
  Forall silent agents →
  orchestrate config repr clock agents processed_input "sequential" = Ok []
  ∧ orchestrate (WithOrchestration max_iterations) repr clock agents
      processed_input "loop" = Ok []
  ∧ orchestrate config repr clock agents processed_input "conditional" = Ok []
  ∧ (∃ responses,
       orchestrate config repr clock agents processed_input "parallel"
       = Ok responses
       ∧ length responses = length agents
       ∧ Forall (λ r, status r = Some "no_response") responses).
Proof.
  intros _ Hsilent. unfold orchestrate. cbn. split_and!.
  - unfold _sequential_orchestration. by rewrite sequential_loop_silent.
  - unfold _loop_orchestration. by rewrite loop_iterations_silent.
  - unfold _conditional_orchestration. by rewrite conditional_loop_silent.
  - eexists. split_and!; [reflexivity|apply parallel_one_record_per_agent|].
    unfold _parallel_orchestration. apply Forall_forall. intros r Hr.
    apply elem_of_lookup_imap in Hr as (i & agent & -> & Hagent).
    rewrite execute_agent_async_silent; [done|].
    eapply Forall_forall; [exact Hsilent|]. by eapply list_elem_of_lookup_2.
Qed.

Lemma quiet_agent_silent : silent Scenario.quiet_agent.
Proof. intros context. eexists. split; reflexivity. Defined.

Lemma quiet_agent_leaves_no_record :
  orchestrate Scenario.core_config Scenario.repr_plain Scenario.stamps
    [Scenario.quiet_agent] Scenario.hello "sequential" = Ok []
  ∧ orchestrate (WithOrchestration None) Scenario.repr_plain Scenario.stamps
      [Scenario.quiet_agent] Scenario.hello "loop" = Ok []
  ∧ orchestrate Scenario.core_config Scenario.repr_plain Scenario.stamps
      [Scenario.quiet_agent] Scenario.hello "conditional" = Ok []
  ∧ (∃ responses,
       orchestrate Scenario.core_config Scenario.repr_plain Scenario.stamps
         [Scenario.quiet_agent] Scenario.hello "parallel" = Ok responses
       ∧ length responses = length [Scenario.quiet_agent]
       ∧ Forall (λ r, status r = Some "no_response") responses).
Proof.
  apply (silent_agents_leave_no_record Scenario.core_config None
           Scenario.repr_plain Scenario.stamps [Scenario.quiet_agent]
           Scenario.hello).
  - discriminate.
  - constructor; [exact quiet_agent_silent|constructor].
Defined.

(** An agent that does answer is recorded by every strategy. *)
Example echo_agent_sequential :
  orchestrate Scenario.core_config Scenario.repr_plain Scenario.stamps
    [Scenario.echo_agent; Scenario.quiet_agent] Scenario.hello "sequential"
  = Ok [mkResponse "echo" (Some (PyStr "hello")) (Some ∅) None None None None
          None].
Proof. vm_compute. reflexivity. Qed.

End OrchestratorProperties.

Section OrchestratorFurtherProperties.
Import Orchestrator Expected.

(** *** Further properties of the strategies *)

Lemma imap_agent_names (f : nat → Agent → Response) agents :
  (∀ i a, agent (f i a) = name a) →
  agent <$> imap f agents = name <$> agents.
Proof.
  revert f. induction agents as [|a agents IH]; intros f Hf; [done|].
  cbn. rewrite Hf. f_equal. apply IH. intros i b. apply Hf.
Qed.

Lemma execute_agent_async_record now a processed_input :
  agent (_execute_agent_async now a processed_input) = name a
  ∧ (status (_execute_agent_async now a processed_input) = Some "completed"
     ∨ status (_execute_agent_async now a processed_input) = Some "no_response"
     ∨ status (_execute_agent_async now a processed_input) = Some "failed").
Proof.
  unfold _execute_agent_async. destruct (invoke a _) as [[response|]|e]; cbn; auto.
Qed.

(** X14: the Parallel strategy returns one record per agent, in the
    order of the agent list, each naming its agent and carrying one of
    the statuses [completed], [no_response], [failed]; an agent that
    raises only turns its own record into a [failed] one. *)
Theorem parallel_records_follow_agents clock agents processed_input :
  let responses := _parallel_orchestration clock agents processed_input in
  agent <$> responses = name <$> agents
  ∧ Forall (λ r, status r = Some "completed" ∨ status r = Some "no_response"
                 ∨ status r = Some "failed") responses
  ∧ (∀ i a, agents !! i = Some a →
            ∃ r, responses !! i = Some r
                 ∧ (status r = Some "failed"
                    ↔ is_raise (invoke a
                                  (RequestContext.mkRequestContext
                                     (default "" (text processed_input))
                                     ("async_" +:+ fst (clock i))
                                     (snd (clock i)) ∅)) = true)).
Proof.
  cbn zeta. unfold _parallel_orchestration. split_and!.
  - apply imap_agent_names. intros i a. apply execute_agent_async_record.
  - apply Forall_forall. intros r (i & a & -> & _)%elem_of_lookup_imap.
    apply execute_agent_async_record.
  - intros i a Ha. eexists. rewrite list_lookup_imap, Ha. split; [done|].
    unfold _execute_agent_async. destruct (invoke a _) as [[response|]|e]; by cbn.
Qed.

Lemma sequential_loop_names clock processed_input agents tick responses :
  Forall responsive agents →
  agent <$> sequential_loop clock processed_input agents tick responses
  = (agent <$> responses) ++ (name <$> agents).
Proof.
  intros Hall. revert tick responses.
  induction Hall as [|a agents Ha _ IH]; intros tick responses.
  - cbn. by rewrite app_nil_r.
  - cbn [sequential_loop]. rewrite IH.
    match goal with |- context [invoke a ?c] => specialize (Ha c);
      destruct (invoke a c) as [[response|]|e] end; [| done |];
      rewrite fmap_app; cbn; by rewrite <- app_assoc.
Qed.

Lemma conditional_loop_names clock processed_input agents tick responses :
  Forall responsive agents →
  agent <$> conditional_loop clock processed_input agents tick responses
  = (agent <$> responses) ++ (name <$> agents).
Proof.
  intros Hall. revert tick responses.
  induction Hall as [|a agents Ha _ IH]; intros tick responses.
  - cbn. by rewrite app_nil_r.
  - cbn [conditional_loop _should_execute_agent]. rewrite IH.
    match goal with |- context [invoke a ?c] => specialize (Ha c);
      destruct (invoke a c) as [[response|]|e] end; [| done |];
      rewrite fmap_app; cbn; by rewrite <- app_assoc.
Qed.

(** X15: when every agent either raises or leaves an event on its
    queue, the Sequential and the Conditional strategies return one
    record per agent, in list order, each naming its agent: an agent
    that raises does not keep the later ones from running. *)
Theorem sequential_records_follow_responsive_agents clock agents processed_input :
  Forall responsive agents →
  agent <$> _sequential_orchestration clock agents processed_input
  = name <$> agents
  ∧ agent <$> _conditional_orchestration clock agents processed_input
    = name <$> agents.
Proof.
  intros Hall. unfold _sequential_orchestration, _conditional_orchestration.
  by rewrite sequential_loop_names, conditional_loop_names.
Qed.

Lemma echo_agent_responsive : responsive Scenario.echo_agent.
Proof. intros context. unfold invoke. cbn. discriminate. Defined.

Lemma failing_agent_responsive : responsive Scenario.failing_agent.
Proof. intros context. unfold invoke. cbn. discriminate. Defined.

Lemma sequential_records_scenario :
  agent <$> _sequential_orchestration Scenario.stamps
              [Scenario.failing_agent; Scenario.echo_agent] Scenario.hello
  = name <$> [Scenario.failing_agent; Scenario.echo_agent]
  ∧ agent <$> _conditional_orchestration Scenario.stamps
                [Scenario.failing_agent; Scenario.echo_agent] Scenario.hello
    = name <$> [Scenario.failing_agent; Scenario.echo_agent].
Proof.
  apply (sequential_records_follow_responsive_agents Scenario.stamps
           [Scenario.failing_agent; Scenario.echo_agent] Scenario.hello).
  repeat constructor;
    [exact failing_agent_responsive|exact echo_agent_responsive].
Defined.





Lemma conditional_loop_records clock processed_input agents :
  ∀ tick acc,
    Forall (λ r, condition_met r = Some true ∧ status r ≠ Some "skipped") acc →
    Forall (λ r, condition_met r = Some true ∧ status r ≠ Some "skipped")
           (conditional_loop clock processed_input agents tick acc).
Proof.
  induction agents as [|a agents IH]; intros tick acc Hacc; [done|].
  cbn [conditional_loop _should_execute_agent]. apply IH.
  match goal with |- context [invoke a ?c] =>
    destruct (invoke a c) as [[response|]|e] end;
    [apply Forall_app; split; [done|]; by repeat constructor
    |done
    |apply Forall_app; split; [done|]; by repeat constructor].
Qed.

(** X17: the Conditional strategy never skips an agent: every
    record it returns has [condition_met] set to [True] and none has
    the status [skipped], because [_should_execute_agent] accepts
    every agent. *)
Theorem conditional_never_skips clock agents processed_input :
  Forall (λ r, condition_met r = Some true ∧ status r ≠ Some "skipped")
         (_conditional_orchestration clock agents processed_input).
Proof.
  unfold _conditional_orchestration. apply conditional_loop_records.
  constructor.
Qed.

(** X18: [orchestrate] raises in two cases and in no other: the
    strategy name is none of the four values of
    [OrchestrationStrategy], or the strategy is ["loop"] and the
    read of [max_iterations] from the configuration raises.  The
    error is an [OrchestrationError] either way: it carries the text
    of the [ValueError], built on [repr] of the name, in the first
    case and the text of the exception of the read in the second. *)
Theorem orchestrate_raises_exactly_when config repr clock agents
    processed_input strategy :
  (is_raise (orchestrate config repr clock agents processed_input strategy)
   = true
   ↔ strategy ∉ ["sequential"; "parallel"; "loop"; "conditional"]
     ∨ (strategy = "loop" ∧ ∃ message, config = Unreadable message))
  ∧ (strategy ∉ ["sequential"; "parallel"; "loop"; "conditional"] →
     orchestrate config repr clock agents processed_input strategy
     = Raise (OrchestrationError
                ("Error orquestando agentes: " +:+ repr strategy
                 +:+ " is not a valid OrchestrationStrategy")))
  ∧ (∀ message,
       config = Unreadable message →
       orchestrate config repr clock agents processed_input "loop"
       = Raise (OrchestrationError ("Error orquestando agentes: " +:+ message))).
Proof.
  assert (Hunknown :
            strategy ∉ ["sequential"; "parallel"; "loop"; "conditional"] →
            orchestrate config repr clock agents processed_input strategy
            = Raise (OrchestrationError
                       ("Error orquestando agentes: " +:+ repr strategy
                        +:+ " is not a valid OrchestrationStrategy"))).
  { rewrite !not_elem_of_cons. intros (H1 & H2 & H3 & H4 & _).
    unfold orchestrate, OrchestrationStrategy_of_value.
    by rewrite !bool_decide_eq_false_2 by done. }
  split_and!; [|exact Hunknown|by intros message ->].
  split.
  - intros Hraise.
    destruct (decide (strategy ∈ ["sequential"; "parallel"; "loop";
                                  "conditional"])) as [Hin|Hnotin];
      [|by left].
    right.
    apply elem_of_cons in Hin as [->|Hin]; [discriminate Hraise|].
    apply elem_of_cons in Hin as [->|Hin]; [discriminate Hraise|].
    apply elem_of_cons in Hin as [->|Hin].
    + split; [done|]. destruct config as [max_iterations|message];
        [discriminate Hraise|by exists message].
    + apply elem_of_cons in Hin as [->|Hin]; [discriminate Hraise|].
      by apply elem_of_nil in Hin.
  - intros [Hnotin|[-> [message ->]]]; [by rewrite (Hunknown Hnotin)|done].
Qed.

End OrchestratorFurtherProperties.

(** ** Agent discovery *)

Section AgentDiscoveryProperties.
Import AgentDiscovery Expected.

(** Without a query, or with the empty dictionary, no attribute of
    the card is read. *)
Lemma _matches_query_no_query agent_card query :
  truthy_query query = false →
  _matches_query agent_card query = Returns true.
Proof. intros Hfalsy. unfold _matches_query. by rewrite Hfalsy. Qed.

Lemma discover_loop_no_query query agent_cards matching_agents :
  truthy_query query = false →
  discover_loop query agent_cards matching_agents
  = Returns (matching_agents ++ agent_cards).
Proof.
  intros Hfalsy. revert matching_agents.
  induction agent_cards as [|agent_card agent_cards IH]; intros matching_agents.
  - cbn. by rewrite app_nil_r.
  - cbn [discover_loop]. rewrite (_matches_query_no_query _ _ Hfalsy).
    cbn [outcome_bind]. rewrite IH. by rewrite <- app_assoc.
Qed.

(** The part of the claim that the code meets: an absent query
    returns every card of the registry, in registration order. *)
Lemma discover_agents_no_query self query :
  truthy_query query = false →
  discover_agents self query = Returns (list_all_agents self).
Proof.
  intros Hfalsy. unfold discover_agents, list_all_agents.
  by rewrite (discover_loop_no_query _ _ _ Hfalsy).
Qed.


(** The metadata clause reads [agent_card.metadata] for its first
    constraint. *)
Lemma _matches_query_metadata_raises agent_card query required_metadata :
  skills query = None →
  metadata query = Some required_metadata →
  required_metadata ≠ ∅ →
  _matches_query agent_card (Some query) = Raises AttributeError.
Proof.
  intros Hskills Hmetadata Hnonempty. unfold _matches_query, truthy_query.
  rewrite Hskills, Hmetadata.
  rewrite (bool_decide_eq_true_2 (is_Some (Some required_metadata)))
    by by eexists.
  rewrite orb_true_r. cbn [negb outcome_bind].
  destruct (map_to_list required_metadata) as [|[key value] items] eqn:Hitems;
    [|reflexivity].
  by apply map_to_list_empty_iff in Hitems.
Qed.

(** A clause that constrains nothing is passed without a lookup: a
    card without skills meets the empty list of required skills, and
    the empty metadata clause is met by every card. *)
Lemma _matches_query_empty_clauses agent_card :
  AgentCard.skills agent_card = [] →
  _matches_query agent_card (Some (mkQuery (Some []) (Some ∅))) = Returns true.
Proof.
  intros Hcard. unfold _matches_query. cbn. rewrite Hcard. cbn.
  by rewrite map_to_list_empty.
Qed.



(** The same registry under the metadata query, and without a query. *)
Example discover_agents_region_raises :
  discover_agents Scenario.one_card (Some Scenario.region_query)
  = Raises AttributeError.
Proof.
  unfold discover_agents. cbn [discover_loop Scenario.one_card agent_registry
                                 fmap list_fmap snd].
  rewrite (_matches_query_metadata_raises _ _ {[ "region" := PyStr "eu" ]});
    [reflexivity..|].
  apply insert_non_empty.
Qed.

Example discover_agents_no_query_scenario :
  discover_agents Scenario.one_card None = Returns [Scenario.bare_card].
Proof. reflexivity. Qed.

End AgentDiscoveryProperties.

Section AgentDiscoveryFurtherProperties.
Import AgentDiscovery Expected.

(** *** The registry under its own operations *)

Lemma run_operation_init op : run_operation init op = init.
Proof. by destruct op as [agent_card now|agent_id]. Qed.

Lemma run_operations_init ops : run_operations init ops = init.
Proof.
  unfold run_operations. induction ops as [|op ops IH]; [done|].
  cbn [foldl]. by rewrite run_operation_init.
Qed.

(** X19: [register_agent] raises [AttributeError] at [agent_card.id]
    for every card and stores nothing, so whatever sequence of
    [register_agent] and [unregister_agent] calls a fresh
    [AgentDiscovery] receives, its registry and cache stay empty:
    [list_all_agents] returns the empty list, [get_agent_by_id]
    returns [None] and [discover_agents] returns the empty list for
    every query. *)
Theorem fresh_registry_stays_empty ops agent_card now agent_id query :
  let self := run_operations init ops in
  register_agent self agent_card now = (self, Raises AttributeError)
  ∧ agent_registry self = []
  ∧ discovery_cache self = ∅
  ∧ list_all_agents self = []
  ∧ get_agent_by_id self agent_id = None
  ∧ discover_agents self query = Returns [].
Proof. cbn zeta. rewrite run_operations_init. by split_and!. Qed.

End AgentDiscoveryFurtherProperties.

(** ** Context Manager *)

Section ContextManagerProperties.
Import ContextManager.

(** [create_context] refuses an id that is already stored and leaves
    the store as it was: the membership test [create_task] lacks. *)
Lemma create_context_existing_id_raises self name description metadata
    context_id uuid4 now1 now2 :
  truthy_str context_id = true →
  is_Some (_contexts self !! context_id) →
  create_context self name description metadata (Some context_id) uuid4 now1 now2
  = (self,
     Raise (A2AProtocolError
              ("Error creando contexto: Contexto ya existe: " +:+ context_id))).
Proof.
  intros Htruthy [stored Hstored]. unfold create_context.
  by rewrite Htruthy, Hstored.
Qed.

(** C9: [update_context] on a stored context, with an update whose
    ["metadata"] entry is the map [m], leaves in the store a context
    whose metadata has every key of [m] at its new value and every
    other key as before; the name and the description are untouched
    when the update does not carry them; and when the stored context
    was valid and the update carries neither, the call returns the
    updated context. *)
Theorem update_context_merges_metadata self context_id context_info updates m now :
  _contexts self !! context_id = Some context_info →
  metadata updates = Some m →
  let '(self', r) := update_context self context_id updates now in
  ∃ updated,
    _contexts self' !! context_id = Some updated
    ∧ (∀ key value, m !! key = Some value →
                    ContextInfo.metadata updated !! key = Some value)
    ∧ (∀ key, m !! key = None →
              ContextInfo.metadata updated !! key
              = ContextInfo.metadata context_info !! key)
    ∧ (name updates = None →
       ContextInfo.name updated = ContextInfo.name context_info)
    ∧ (description updates = None →
       ContextInfo.description updated = ContextInfo.description context_info)
    ∧ ContextInfo.task_ids updated = ContextInfo.task_ids context_info
    ∧ (_validate_context_info context_info = Ok tt →
       name updates = None → description updates = None →
       r = Ok updated).
Proof.
  intros Hstored Hmeta. unfold update_context. rewrite Hstored, Hmeta.
  cbn zeta.
  set (updated := ContextInfo.mkContextInfo _ _ _ _ _ _ _).
  assert (Hkeeps : _validate_context_info context_info = Ok tt →
                   name updates = None → description updates = None →
                   _validate_context_info updated = Ok tt).
  { intros Hvalid Hname Hdescription. subst updated.
    rewrite Hname, Hdescription. exact Hvalid. }
  destruct (_validate_context_info updated) as [[]|e] eqn:Hvalidate;
    exists updated; cbn; rewrite lookup_insert_eq.
  all: split_and!;
    [ done
    | intros key value Hkey; by apply lookup_union_Some_l
    | intros key Hkey; by apply lookup_union_r
    | by intros ->
    | by intros ->
    | done
    | ].
  - done.
  - intros Hvalid Hname Hdescription.
    specialize (Hkeeps Hvalid Hname Hdescription). congruence.
Qed.

Lemma update_context_merges_scenario :
  let '(self', r) :=
    update_context Scenario.one_context "C1"
      (mkUpdates None None (Some Scenario.stage_update)) "t1" in
  ∃ updated,
    _contexts self' !! "C1" = Some updated
    ∧ (∀ key value, Scenario.stage_update !! key = Some value →
                    ContextInfo.metadata updated !! key = Some value)
    ∧ (∀ key, Scenario.stage_update !! key = None →
              ContextInfo.metadata updated !! key
              = ContextInfo.metadata Scenario.context_C1 !! key)
    ∧ (name (mkUpdates None None (Some Scenario.stage_update)) = None →
       ContextInfo.name updated = ContextInfo.name Scenario.context_C1)
    ∧ (description (mkUpdates None None (Some Scenario.stage_update)) = None →
       ContextInfo.description updated
       = ContextInfo.description Scenario.context_C1)
    ∧ ContextInfo.task_ids updated = ContextInfo.task_ids Scenario.context_C1
    ∧ (_validate_context_info Scenario.context_C1 = Ok tt →
       name (mkUpdates None None (Some Scenario.stage_update)) = None →
       description (mkUpdates None None (Some Scenario.stage_update)) = None →
       r = Ok updated).
Proof.
  apply (update_context_merges_metadata Scenario.one_context "C1"
           Scenario.context_C1
           (mkUpdates None None (Some Scenario.stage_update))
           Scenario.stage_update "t1").
  - vm_compute. reflexivity.
  - reflexivity.
Defined.

(** The merged metadata of the scenario: ["stage"] replaced,
    ["carrier"] added, ["owner"] kept. *)
Example update_context_merged_metadata :
  (λ merged : pydict, (merged !! "owner", merged !! "stage", merged !! "carrier"))
    (ContextInfo.metadata
       (default Scenario.context_C1
          (_contexts
             (fst (update_context Scenario.one_context "C1"
                     (mkUpdates None None (Some Scenario.stage_update)) "t1"))
           !! "C1")))
  = (Some (PyStr "ana"), Some (PyInt 2), Some (PyStr "sea")).
Proof. vm_compute. reflexivity. Qed.

End ContextManagerProperties.

Section ContextManagerFurtherProperties.
Import ContextManager Expected.

(** *** Further properties of the context store *)

Lemma context_info_init_valid context_id name description metadata now1 now2 :
  truthy_str context_id = true →
  _validate_context_info
    (ContextInfo.init context_id name description metadata now1 now2)
  = Ok tt
  ∧ truthy_str (ContextInfo.name
                  (ContextInfo.init context_id name description metadata
                     now1 now2)) = true
  ∧ truthy_str (ContextInfo.description
                  (ContextInfo.init context_id name description metadata
                     now1 now2)) = true.
Proof.
  intros Hid.
  assert (Hname : truthy_str (ContextInfo.name
            (ContextInfo.init context_id name description metadata now1 now2))
          = true).
  { cbn. destruct name as [s|]; [|done]. by destruct (truthy_str s) eqn:Hs. }
  assert (Hdescription : truthy_str (ContextInfo.description
            (ContextInfo.init context_id name description metadata now1 now2))
          = true).
  { cbn. destruct description as [s|]; [|done].
    by destruct (truthy_str s) eqn:Hs. }
  split_and!; [|done..]. unfold _validate_context_info, raise_if.
  rewrite Hname, Hdescription. cbn [ContextInfo.context_id ContextInfo.init].
  by rewrite Hid.
Qed.

(** X22: [create_context] with an id that is not stored yet (the one
    given, or the generated one when none or an empty one is given)
    always succeeds: it returns and stores a context with that id, a
    non-empty name and description, and no tasks.  A given non-empty
    name is kept; without one the name is ["Context-"] followed by the
    first eight characters of the id. *)
Theorem create_context_stores_valid_context self name description metadata
    context_id uuid4 now1 now2 :
  let actual :=
    match context_id with
    | Some s => if truthy_str s then s else uuid4
    | None => uuid4
    end in
  truthy_str actual = true →
  _contexts self !! actual = None →
  ∃ context_info,
    create_context self name description metadata context_id uuid4 now1 now2
    = (mkContextManager (<[actual := context_info]> (_contexts self)),
       Ok context_info)
    ∧ ContextInfo.context_id context_info = actual
    ∧ truthy_str (ContextInfo.name context_info) = true
    ∧ truthy_str (ContextInfo.description context_info) = true
    ∧ ContextInfo.task_ids context_info = []
    ∧ (∀ s, name = Some s → truthy_str s = true →
            ContextInfo.name context_info = s)
    ∧ (name = None →
       ContextInfo.name context_info
       = "Context-" +:+ String.substring 0 8 actual).
Proof.
  cbn zeta. intros Hid Hfresh. unfold create_context. cbn zeta.
  rewrite Hfresh.
  destruct (context_info_init_valid _ name description metadata now1 now2 Hid)
    as (-> & Hname & Hdescription).
  eexists. split_and!; [reflexivity|done|done|done|done| |].
  - intros s -> Hs. cbn. by rewrite Hs.
  - by intros ->.
Qed.

Lemma create_context_scenario :
  ∃ context_info,
    create_context init None None None None "0f8fad5b-d9cb" "t0" "t1"
    = (mkContextManager (<["0f8fad5b-d9cb" := context_info]> (_contexts init)),
       Ok context_info)
    ∧ ContextInfo.context_id context_info = "0f8fad5b-d9cb"
    ∧ truthy_str (ContextInfo.name context_info) = true
    ∧ truthy_str (ContextInfo.description context_info) = true
    ∧ ContextInfo.task_ids context_info = []
    ∧ (∀ s, None = Some s → truthy_str s = true →
            ContextInfo.name context_info = s)
    ∧ (@None string = None →
       ContextInfo.name context_info
       = "Context-" +:+ String.substring 0 8 "0f8fad5b-d9cb").
Proof.
  apply (create_context_stores_valid_context init None None None None
           "0f8fad5b-d9cb" "t0" "t1"); reflexivity.
Defined.

(** X23: a second [create_context] with the id of a context that a
    first call has just stored raises ["Contexto ya existe"] and
    leaves the store holding the first context. *)
Theorem create_context_twice_rejected self name description metadata name'
    description' metadata' context_id uuid4 uuid4' now1 now2 now3 now4 :
  truthy_str context_id = true →
  _contexts self !! context_id = None →
  let '(self1, r1) :=
    create_context self name description metadata (Some context_id) uuid4
      now1 now2 in
  let '(self2, r2) :=
    create_context self1 name' description' metadata' (Some context_id) uuid4'
      now3 now4 in
  is_raise r1 = false
  ∧ r2 = Raise (A2AProtocolError
                  ("Error creando contexto: Contexto ya existe: " +:+ context_id))
  ∧ self2 = self1
  ∧ (∃ context_info,
       r1 = Ok context_info ∧ get_context self2 context_id = Some context_info).
Proof.
  intros Hid Hfresh.
  destruct (create_context_stores_valid_context self name description metadata
              (Some context_id) uuid4 now1 now2) as (context_info & Hfirst & _);
    cbn zeta; rewrite ?Hid; [done..|].
  rewrite Hid in Hfirst. rewrite Hfirst.
  rewrite create_context_existing_id_raises;
    [|done|cbn; rewrite lookup_insert_eq; by eexists].
  split_and!; [done..|]. exists context_info. split; [done|].
  unfold get_context. cbn. by rewrite lookup_insert_eq.
Qed.

Lemma create_context_twice_scenario :
  let '(self1, r1) :=
    create_context init (Some "Shipment") None None (Some "C1") "u1" "t0" "t1" in
  let '(self2, r2) :=
    create_context self1 (Some "Other") None None (Some "C1") "u2" "t2" "t3" in
  is_raise r1 = false
  ∧ r2 = Raise (A2AProtocolError
                  ("Error creando contexto: Contexto ya existe: " +:+ "C1"))
  ∧ self2 = self1
  ∧ (∃ context_info,
       r1 = Ok context_info ∧ get_context self2 "C1" = Some context_info).
Proof.
  apply (create_context_twice_rejected init (Some "Shipment") None None
           (Some "Other") None None "C1" "u1" "u2" "t0" "t1" "t2" "t3");
    reflexivity.
Defined.

(** X24: [add_task_to_context] is idempotent: a second call with the
    same context and task leaves the state the first call produced
    and reports the same result.  The call reports [False] exactly when
    the context is unknown, and then changes nothing; otherwise the
    task id is listed afterwards. *)
Theorem add_task_to_context_idempotent self context_id task_id now now' :
  let '(self1, added) := add_task_to_context self context_id task_id now in
  add_task_to_context self1 context_id task_id now' = (self1, added)
  ∧ (added = false ↔ _contexts self !! context_id = None)
  ∧ (added = false → self1 = self)
  ∧ (added = true →
     ∃ context_info,
       _contexts self1 !! context_id = Some context_info
       ∧ task_id ∈ ContextInfo.task_ids context_info).
Proof.
  unfold add_task_to_context.
  destruct (_contexts self !! context_id) as [context_info|] eqn:Hstored.
  - cbn [_contexts].
    assert (Hlookup :
              <[context_id := ContextInfo.add_task context_info task_id now]>
                (_contexts self) !! context_id
              = Some (ContextInfo.add_task context_info task_id now))
      by apply lookup_insert_eq.
    rewrite Hlookup.
    assert (Hlisted : task_id
                      ∈ ContextInfo.task_ids
                          (ContextInfo.add_task context_info task_id now)).
    { unfold ContextInfo.add_task. case_bool_decide; [done|]. cbn.
      apply elem_of_app. right. apply list_elem_of_here. }
    split_and!.
    + f_equal. f_equal. rewrite insert_insert_eq. f_equal.
      unfold ContextInfo.add_task at 1. by rewrite bool_decide_eq_true_2.
    + done.
    + done.
    + intros _. by eexists.
  - rewrite Hstored. split_and!; done.
Qed.

Lemma py_list_remove_NoDup x l :
  NoDup l → NoDup (py_list_remove x l) ∧ x ∉ py_list_remove x l.
Proof.
  induction l as [|y l IH]; cbn; [split; [done|apply not_elem_of_nil]|].
  intros [Hy Hnodup]%NoDup_cons. destruct (IH Hnodup) as [IH1 IH2].
  case_bool_decide as Hxy; [by subst y|]. split.
  - apply NoDup_cons. split; [|done]. intros Hin. apply Hy. clear -Hin.
    induction l as [|z l IHl]; cbn in Hin; [done|].
    case_bool_decide; [by apply list_elem_of_further|].
    apply elem_of_cons in Hin as [->|Hin]; [apply list_elem_of_here|].
    by apply list_elem_of_further, IHl.
  - by intros [?|?]%elem_of_cons.
Qed.

Lemma py_list_remove_length_elem_of x l :
  x ∈ l → S (length (py_list_remove x l)) = length l.
Proof.
  induction l as [|y l IH]; cbn; [by intros ?%elem_of_nil|].
  case_bool_decide as Hxy; [done|].
  intros [?|Hin]%elem_of_cons; [done|]. cbn. by rewrite IH.
Qed.

Lemma context_info_run_NoDup self op :
  NoDup (ContextInfo.task_ids self) →
  NoDup (ContextInfo.task_ids (ContextInfo.run_operation self op)).
Proof.
  intros Hnodup. destruct op as [i now|i now]; cbn.
  - unfold ContextInfo.add_task. case_bool_decide as Hin; [done|]. cbn.
    apply NoDup_app. split_and!; [done| |apply NoDup_singleton].
    by intros k Hk ->%list_elem_of_singleton.
  - unfold ContextInfo.remove_task. case_bool_decide; [|done]. cbn.
    by apply py_list_remove_NoDup.
Qed.

(** X25: the task list of a context never holds an id twice,
    whatever sequence of [add_task] and [remove_task] calls the
    context has seen since it was built.  Hence [remove_task] leaves
    no occurrence of the id behind; it returns [True] exactly when the
    id was listed, and [get_task_count] then drops by one. *)
Theorem context_task_ids_stay_distinct context_id name description metadata
    now1 now2 ops task_id now :
  let self :=
    ContextInfo.run_operations
      (ContextInfo.init context_id name description metadata now1 now2) ops in
  let '(self', removed) := ContextInfo.remove_task self task_id now in
  NoDup (ContextInfo.task_ids self)
  ∧ (task_id ∉ ContextInfo.task_ids self')
  ∧ (removed = true ↔ task_id ∈ ContextInfo.task_ids self)
  ∧ ContextInfo.get_task_count self
    = (if removed then S (ContextInfo.get_task_count self')
       else ContextInfo.get_task_count self').
Proof.
  cbn zeta.
  assert (Hnodup : NoDup (ContextInfo.task_ids
            (ContextInfo.run_operations
               (ContextInfo.init context_id name description metadata now1 now2)
               ops))).
  { unfold ContextInfo.run_operations.
    assert (Hinit : NoDup (ContextInfo.task_ids
              (ContextInfo.init context_id name description metadata now1 now2)))
      by constructor.
    revert Hinit. generalize (ContextInfo.init context_id name description
                                metadata now1 now2).
    induction ops as [|op ops IH]; intros self Hself; [done|].
    cbn. by apply IH, context_info_run_NoDup. }
  set (self := ContextInfo.run_operations _ ops) in *.
  unfold ContextInfo.remove_task, ContextInfo.get_task_count.
  case_bool_decide as Hin; cbn [ContextInfo.task_ids].
  - split_and!; [done|by apply py_list_remove_NoDup|done|].
    by rewrite py_list_remove_length_elem_of.
  - split_and!; [done|done| |done]. split; [done|]. intros ?. done.
Qed.

Lemma delete_task_tasks_lookup task_manager task_id k :
  TaskManager._tasks (fst (TaskManager.delete_task task_manager task_id)) !! k
  = if decide (task_id = k) then None else TaskManager._tasks task_manager !! k.
Proof.
  unfold TaskManager.delete_task.
  destruct (TaskManager._tasks task_manager !! task_id) as [task_info|] eqn:Hstored;
    cbn.
  - apply lookup_delete.
  - case_decide; [by subst k|done].
Qed.

Lemma delete_tasks_lookup ids :
  ∀ task_manager k,
    TaskManager._tasks
      (foldl (λ task_manager task_id,
                fst (TaskManager.delete_task task_manager task_id))
             task_manager ids) !! k
    = if decide (k ∈ ids) then None else TaskManager._tasks task_manager !! k.
Proof.
  induction ids as [|i ids IH]; intros task_manager k; cbn.
  - rewrite decide_False; [done|apply not_elem_of_nil].
  - rewrite IH, delete_task_tasks_lookup.
    destruct (decide (k ∈ ids)) as [Hin|Hin].
    + rewrite decide_True; [done|by apply list_elem_of_further].
    + destruct (decide (i = k)) as [->|Hne].
      * rewrite decide_True; [done|apply list_elem_of_here].
      * rewrite decide_False; [done|]. by intros [?|?]%elem_of_cons.
Qed.

(** X26: [ContextManager.delete_context] with [delete_tasks=True]
    removes the context and deletes from the task manager every task
    the context listed, and no other task; with [delete_tasks=False],
    or without a task manager, the tasks are left alone.  Other
    contexts are untouched, and the call returns [True]. *)
Theorem delete_context_cascades self task_manager context_id context_info :
  _contexts self !! context_id = Some context_info →
  (∃ task_manager',
     delete_context self (Some task_manager) context_id true
     = (mkContextManager (delete context_id (_contexts self)),
        Some task_manager', true)
     ∧ (∀ task_id, task_id ∈ ContextInfo.task_ids context_info →
                   TaskManager.get_task task_manager' task_id = None)
     ∧ (∀ task_id, task_id ∉ ContextInfo.task_ids context_info →
                   TaskManager.get_task task_manager' task_id
                   = TaskManager.get_task task_manager task_id))
  ∧ delete_context self (Some task_manager) context_id false
    = (mkContextManager (delete context_id (_contexts self)),
       Some task_manager, true)
  ∧ (∀ delete_tasks,
       delete_context self None context_id delete_tasks
       = (mkContextManager (delete context_id (_contexts self)), None, true))
  ∧ get_context (mkContextManager (delete context_id (_contexts self))) context_id
    = None
  ∧ (∀ other, other ≠ context_id →
              get_context (mkContextManager (delete context_id (_contexts self)))
                other
              = get_context self other).
Proof.
  intros Hstored. unfold delete_context, get_context. rewrite Hstored.
  cbn [_contexts]. split_and!.
  - eexists. split; [reflexivity|]. unfold TaskManager.get_task. split.
    + intros task_id Hin. by rewrite delete_tasks_lookup, decide_True.
    + intros task_id Hin. by rewrite delete_tasks_lookup, decide_False.
  - done.
  - done.
  - apply lookup_delete_eq.
  - intros other Hother. by apply lookup_delete_ne.
Qed.

Lemma delete_context_cascades_scenario :
  (∃ task_manager',
     delete_context Scenario.listing_context (Some Scenario.two_tasks) "C1" true
     = (mkContextManager (delete "C1" (_contexts Scenario.listing_context)),
        Some task_manager', true)
     ∧ (∀ task_id,
          task_id ∈ ContextInfo.task_ids
                      (ContextInfo.add_task
                         (ContextInfo.add_task Scenario.context_C1 "T1" "t1")
                         "T9" "t2") →
          TaskManager.get_task task_manager' task_id = None)
     ∧ (∀ task_id,
          task_id ∉ ContextInfo.task_ids
                      (ContextInfo.add_task
                         (ContextInfo.add_task Scenario.context_C1 "T1" "t1")
                         "T9" "t2") →
          TaskManager.get_task task_manager' task_id
          = TaskManager.get_task Scenario.two_tasks task_id))
  ∧ delete_context Scenario.listing_context (Some Scenario.two_tasks) "C1" false
    = (mkContextManager (delete "C1" (_contexts Scenario.listing_context)),
       Some Scenario.two_tasks, true)
  ∧ (∀ delete_tasks,
       delete_context Scenario.listing_context None "C1" delete_tasks
       = (mkContextManager (delete "C1" (_contexts Scenario.listing_context)),
          None, true))
  ∧ get_context
      (mkContextManager (delete "C1" (_contexts Scenario.listing_context))) "C1"
    = None
  ∧ (∀ other, other ≠ "C1" →
              get_context
                (mkContextManager
                   (delete "C1" (_contexts Scenario.listing_context))) other
              = get_context Scenario.listing_context other).
Proof.
  apply (delete_context_cascades Scenario.listing_context Scenario.two_tasks
           "C1"
           (ContextInfo.add_task
              (ContextInfo.add_task Scenario.context_C1 "T1" "t1") "T9" "t2")).
  vm_compute. reflexivity.
Defined.

Lemma counts_total_increment (status_counts : gmap string nat) status :
  counts_total (<[status := default 0 (status_counts !! status) + 1]> status_counts)
  = S (counts_total status_counts).
Proof.
  unfold counts_total.
  destruct (status_counts !! status) as [count|] eqn:Hcount; cbn [default].
  - rewrite <- insert_delete_eq.
    rewrite map_fold_insert_L; [|intros; lia|apply lookup_delete_eq].
    rewrite (map_fold_delete_L _ _ status count status_counts);
      [unfold id; lia|intros; lia|done].
  - rewrite map_fold_insert_L; [unfold id; lia|intros; lia|done].
Qed.

Lemma count_statuses_total tasks :
  counts_total (count_statuses tasks) = length tasks.
Proof.
  unfold count_statuses.
  enough (Hgen : ∀ status_counts,
            counts_total
              (foldl (λ status_counts task,
                        let status :=
                          TaskManager.value (TaskManager.status task) in
                        <[status := default 0 (status_counts !! status) + 1]>
                          status_counts)
                     status_counts tasks)
            = counts_total status_counts + length tasks).
  { rewrite Hgen. unfold counts_total. by rewrite map_fold_empty. }
  induction tasks as [|task tasks IH]; intros status_counts; cbn [foldl length].
  - lia.
  - rewrite IH. cbn zeta. rewrite counts_total_increment. lia.
Qed.

Lemma omap_length_le {A B} (f : A → option B) l :
  (length (omap f l) ≤ length l)%nat.
Proof. induction l as [|x l IH]; cbn; [done|]. destruct (f x); cbn; lia. Qed.

(** X27: for a stored context [get_context_statistics] reports as
    [total_tasks] the number of listed ids that the task manager
    resolves, which never exceeds the context's [get_task_count], and
    the entries of [status_counts] add up to it; for an unknown
    context it returns the empty dictionary. *)
Theorem context_statistics_add_up self task_manager context_id :
  match get_context_statistics self task_manager context_id with
  | Some stats =>
      ∃ context_info,
        _contexts self !! context_id = Some context_info
        ∧ stats_total_tasks stats
          = length (get_context_tasks self task_manager context_id)
        ∧ counts_total (stats_status_counts stats) = stats_total_tasks stats
        ∧ (stats_total_tasks stats ≤ ContextInfo.get_task_count context_info)%nat
  | None => _contexts self !! context_id = None
  end.
Proof.
  unfold get_context_statistics.
  destruct (_contexts self !! context_id) as [context_info|] eqn:Hstored; [|done].
  exists context_info. cbn. split_and!; [done|done|apply count_statuses_total|].
  unfold get_context_tasks. rewrite Hstored.
  destruct task_manager as [task_manager|]; [apply omap_length_le|cbn; lia].
Qed.

(** The statistics of a context that lists a stored and an unknown
    task. *)
Example context_statistics_scenario :
  (λ stats, (stats_total_tasks <$> stats,
             (λ s, stats_status_counts s !! "pending") <$> stats))
    (get_context_statistics Scenario.listing_context (Some Scenario.two_tasks)
       "C1")
  = (Some 1, Some (Some 1)).
Proof. vm_compute. reflexivity. Qed.

(** One round of the loop of [cleanup_empty_contexts] per collected
    id: each id is stored, so each [delete_context] succeeds. *)
Lemma cleanup_loop task_manager ids :
  ∀ self deleted_count,
    NoDup ids →
    (∀ context_id, context_id ∈ ids → is_Some (_contexts self !! context_id)) →
    ∃ contexts,
      foldl (λ '(self, _task_manager, deleted_count) context_id,
               let '(self, _task_manager, deleted) :=
                 delete_context self _task_manager context_id false in
               (self, _task_manager,
                if deleted then S deleted_count else deleted_count))
            (self, task_manager, deleted_count) ids
      = (mkContextManager contexts, task_manager, deleted_count + length ids)
      ∧ (∀ k, contexts !! k
              = if decide (k ∈ ids) then None else _contexts self !! k)
      ∧ size (_contexts self) = size contexts + length ids.
Proof.
  induction ids as [|i ids IH]; intros self deleted_count Hnodup Hstored.
  - exists (_contexts self). cbn. rewrite !Nat.add_0_r. destruct self.
    split_and!; [done| |done]. intros k.
    rewrite decide_False; [done|apply not_elem_of_nil].
  - apply NoDup_cons in Hnodup as [Hi Hnodup].
    destruct (Hstored i) as [context_info Hcontext]; [apply list_elem_of_here|].
    cbn [foldl]. unfold delete_context at 2. rewrite Hcontext.
    assert (Hsame : match task_manager with
                    | Some t => Some t
                    | None => None
                    end = task_manager) by by destruct task_manager.
    cbn [negb]. rewrite Hsame.
    destruct (IH (mkContextManager (delete i (_contexts self)))
                 (S deleted_count) Hnodup) as (contexts & -> & Hlookup & Hsize).
    { intros k Hk. cbn. rewrite lookup_delete_ne; [|by intros ->].
      apply Hstored. by apply list_elem_of_further. }
    exists contexts. cbn [_contexts length] in *. split_and!.
    + f_equal. lia.
    + intros k. rewrite Hlookup. destruct (decide (k ∈ ids)) as [Hin|Hin].
      * rewrite decide_True; [done|by apply list_elem_of_further].
      * destruct (decide (k = i)) as [->|Hne].
        -- rewrite decide_True; [apply lookup_delete_eq|apply list_elem_of_here].
        -- rewrite decide_False; [by apply lookup_delete_ne|].
           by intros [?|?]%elem_of_cons.
    + rewrite map_size_delete, Hcontext in Hsize.
      assert (size (_contexts self) ≠ 0)
        by (intros Hzero%map_size_empty_inv; by rewrite Hzero in Hcontext).
      lia.
Qed.

Lemma empty_contexts_spec (contexts : gmap string ContextInfo.t) k :
  k ∈ fst <$> List.filter
                (λ item, bool_decide (ContextInfo.get_task_count (snd item) = 0))
                (map_to_list contexts)
  ↔ ∃ context_info,
      contexts !! k = Some context_info ∧ ContextInfo.task_ids context_info = [].
Proof.
  rewrite list_elem_of_fmap. split.
  - intros ([k' context_info] & -> & Hin). apply list_elem_of_In in Hin.
    apply filter_In in Hin as [Hin Hempty]. apply list_elem_of_In in Hin.
    apply elem_of_map_to_list in Hin. apply bool_decide_eq_true in Hempty.
    exists context_info. split; [done|]. cbn in Hempty.
    unfold ContextInfo.get_task_count in Hempty.
    by destruct (ContextInfo.task_ids context_info).
  - intros (context_info & Hstored & Hempty). exists (k, context_info).
    split; [done|]. apply list_elem_of_In, filter_In. split.
    + by apply list_elem_of_In, elem_of_map_to_list.
    + apply bool_decide_eq_true. cbn. unfold ContextInfo.get_task_count.
      by rewrite Hempty.
Qed.

Lemma empty_contexts_NoDup (contexts : gmap string ContextInfo.t) :
  NoDup (fst <$> List.filter
                   (λ item, bool_decide (ContextInfo.get_task_count (snd item) = 0))
                   (map_to_list contexts)).
Proof.
  pose proof (NoDup_fst_map_to_list contexts) as Hnodup.
  induction (map_to_list contexts) as [|[k x] l IH]; cbn; [constructor|].
  cbn in Hnodup. apply NoDup_cons in Hnodup as [Hk Hnodup].
  destruct (bool_decide _); cbn; [|by apply IH].
  apply NoDup_cons. split; [|by apply IH]. intros Hin. apply Hk.
  apply list_elem_of_fmap in Hin as ([k' x'] & -> & Hin).
  apply list_elem_of_In, filter_In in Hin as [Hin _].
  apply list_elem_of_fmap. exists (k', x'). split; [done|].
  by apply list_elem_of_In.
Qed.

(** X28: [cleanup_empty_contexts] removes exactly the contexts whose
    task list is empty and keeps every other context as it is; the
    number it returns is the number of contexts that left the store;
    the task manager is not touched; and a second call right after
    finds nothing to remove and returns 0. *)
Theorem cleanup_removes_empty_contexts self task_manager :
  let '(self', task_manager', deleted_count) :=
    cleanup_empty_contexts self task_manager in
  task_manager' = task_manager
  ∧ (∀ context_id,
       get_context self' context_id
       = match get_context self context_id with
         | Some context_info =>
             match ContextInfo.task_ids context_info with
             | [] => None
             | _ :: _ => Some context_info
             end
         | None => None
         end)
  ∧ size (_contexts self) = size (_contexts self') + deleted_count
  ∧ cleanup_empty_contexts self' task_manager' = (self', task_manager', 0).
Proof.
  unfold cleanup_empty_contexts at 1.
  destruct (cleanup_loop task_manager _ self 0 (empty_contexts_NoDup (_contexts self)))
    as (contexts & -> & Hlookup & Hsize).
  { intros k (context_info & Hstored & _)%empty_contexts_spec. by eexists. }
  assert (Hget : ∀ k, contexts !! k
                      = match _contexts self !! k with
                        | Some context_info =>
                            match ContextInfo.task_ids context_info with
                            | [] => None
                            | _ :: _ => Some context_info
                            end
                        | None => None
                        end).
  { intros k. rewrite Hlookup. case_decide as Hin.
    - apply empty_contexts_spec in Hin as (context_info & -> & ->). done.
    - destruct (_contexts self !! k) as [context_info|] eqn:Hstored; [|done].
      destruct (ContextInfo.task_ids context_info) eqn:Hids; [|done].
      destruct Hin. apply empty_contexts_spec. by exists context_info. }
  split_and!; [done|exact Hget|cbn; lia|].
  unfold cleanup_empty_contexts. cbn [_contexts].
  assert (Hnone : List.filter
            (λ item, bool_decide (ContextInfo.get_task_count (snd item) = 0))
            (map_to_list contexts) = []).
  { destruct (List.filter _ (map_to_list contexts)) as [|[k x] l] eqn:Hfilter;
      [done|].
    assert (Hin : k ∈ fst <$> List.filter
              (λ item, bool_decide (ContextInfo.get_task_count (snd item) = 0))
              (map_to_list contexts)).
    { rewrite Hfilter. cbn. apply list_elem_of_here. }
    apply empty_contexts_spec in Hin as (context_info & Hstored & Hempty).
    rewrite Hget in Hstored.
    destruct (_contexts self !! k) as [c|]; [|done].
    destruct (ContextInfo.task_ids c) eqn:Hc; [done|].
    injection Hstored as <-. congruence. }
  by rewrite Hnone.
Qed.

(** X29: [update_context] validates after it has assigned: an
    update that sets the name to the empty string raises an
    [A2AProtocolError], yet the stored context already carries the
    empty name and the new [updated_at].  For an unknown id the call
    raises and changes nothing. *)
Theorem update_context_validates_after_assignment self context_id updates now :
  (∀ context_info,
     _contexts self !! context_id = Some context_info →
     name updates = Some "" →
     let '(self', r) := update_context self context_id updates now in
     is_raise r = true
     ∧ ∃ stored,
         _contexts self' !! context_id = Some stored
         ∧ ContextInfo.name stored = ""
         ∧ ContextInfo.updated_at stored = now)
  ∧ (_contexts self !! context_id = None →
     update_context self context_id updates now
     = (self,
        Raise (A2AProtocolError
                 ("Error actualizando contexto " +:+ context_id
                  +:+ ": Contexto no encontrado: " +:+ context_id)))).
Proof.
  split.
  - intros context_info Hstored Hname. unfold update_context.
    rewrite Hstored, Hname. cbn zeta. cbn [default from_option].
    set (updated := ContextInfo.mkContextInfo _ _ _ _ _ _ _).
    assert (Hinvalid : is_raise (_validate_context_info updated) = true).
    { unfold _validate_context_info, raise_if, try_except. subst updated. cbn.
      by destruct (truthy_str (ContextInfo.context_id context_info)). }
    destruct (_validate_context_info updated); [done|].
    split; [done|]. exists updated. cbn. by rewrite lookup_insert_eq.
  - intros Hmissing. unfold update_context. by rewrite Hmissing.
Qed.

End ContextManagerFurtherProperties.
